(** * veScale debug utilities: topology renderer and topology dump trigger

    A shallow embedding of [debug/xml_to_png.py] (the renderer) and
    [debug/dump_topo.py] (the trigger), with the properties that the
    specification states about them.

    Conventions of the embedding:
    - a Python [str] is a Rocq [string]; a character is an [ascii], and
      [len], slicing, [upper], [capitalize] and [replace] work on these
      characters;
    - an [xml.etree.ElementTree.Element] is a tag, its attributes in document
      order (a Python dict keeps insertion order) and its child elements;
    - a [graphviz.Digraph] is the list of statements in its body, in the
      order the calls [graph.attr], [graph.node] and [graph.edge] add them;
    - [os.environ] is a finite map from names to values;
    - a script run is the list of lines printed and the way the process
      ends. *)

From stdpp Require Import gmap strings list.
From Stdlib Require Import ZArith Ascii String DecimalString.

#[local] Set Warnings "-register-all".

Local Open Scope string_scope.
Local Open Scope Z_scope.
Local Open Scope list_scope.

(** ** Python string primitives *)

Module PyStr.

(** The double quote and the line feed, which the label templates contain. *)
Definition dq : string := String (ascii_of_nat 34) EmptyString.
Definition nl : string := String (ascii_of_nat 10) EmptyString.

(** Truth value of a [str]: the empty string is false. *)
Definition truthy (s : string) : bool :=
  match s with
  | EmptyString => false
  | String _ _ => true
  end.

(** Truth value of a [str] or [None]. *)
Definition truthy_opt (o : option string) : bool :=
  match o with
  | None => false
  | Some s => truthy s
  end.

Definition is_lower (c : ascii) : bool :=
  (97 <=? nat_of_ascii c)%nat && (nat_of_ascii c <=? 122)%nat.

Definition is_upper (c : ascii) : bool :=
  (65 <=? nat_of_ascii c)%nat && (nat_of_ascii c <=? 90)%nat.

(** Case mapping of one character. On ASCII characters this is Python's
    mapping; a character outside ASCII is left as it is, which is not
    Python's mapping, so properties about case are stated for ASCII
    strings. *)
Definition upper_char (c : ascii) : ascii :=
  if is_lower c then ascii_of_nat (nat_of_ascii c - 32) else c.

Definition lower_char (c : ascii) : ascii :=
  if is_upper c then ascii_of_nat (nat_of_ascii c + 32) else c.

Fixpoint map_chars (f : ascii -> ascii) (s : string) : string :=
  match s with
  | EmptyString => EmptyString
  | String c r => String (f c) (map_chars f r)
  end.

(** [s.upper()] and [s.lower()]. *)
Definition upper (s : string) : string := map_chars upper_char s.
Definition lower (s : string) : string := map_chars lower_char s.

(** [s.capitalize()]: first character upper-cased, the rest lower-cased. *)
Definition capitalize (s : string) : string :=
  match s with
  | EmptyString => EmptyString
  | String c r => String (upper_char c) (lower r)
  end.

(** [s.replace(a, b)] for one-character [a] and [b]. *)
Definition replace (a b : ascii) (s : string) : string :=
  map_chars (fun c => if Ascii.eqb c a then b else c) s.

(** [s[:n]]. *)
Definition slice_to (n : nat) (s : string) : string := substring 0 n s.

(** ["".join(rows)]. *)
Definition join (rows : list string) : string :=
  fold_right String.append EmptyString rows.

(** [str(z)] for an [int]. *)
Definition str_int (z : Z) : string := NilZero.string_of_int (Z.to_int z).

End PyStr.

(** ** The topology document *)

(** An element of the parsed document: [tag], [attrib] and the child
    elements that iterating over the element yields. *)
Inductive Element : Type :=
  | Elem (tag : string) (attrib : list (string * string))
         (children : list Element).

Definition tag (e : Element) : string :=
  match e with Elem t _ _ => t end.

Definition attrib (e : Element) : list (string * string) :=
  match e with Elem _ a _ => a end.

Definition children (e : Element) : list Element :=
  match e with Elem _ _ c => c end.

(** [d.get(key)] on a dict given by its items. *)
Fixpoint dict_get {V : Type} (d : list (string * V)) (key : string)
  : option V :=
  match d with
  | [] => None
  | (k, v) :: r => if String.eqb k key then Some v else dict_get r key
  end.

(** [element.get(key)]. *)
Definition element_get (e : Element) (key : string) : option string :=
  dict_get (attrib e) key.

(** Number of elements of a document. *)
Fixpoint size (e : Element) : nat :=
  match e with
  | Elem _ _ cs => S ((fix sizes (l : list Element) : nat :=
                         match l with
                         | [] => O
                         | c :: r => (size c + sizes r)%nat
                         end) cs)
  end.

Definition sizes (l : list Element) : nat :=
  fold_right (fun c n => (size c + n)%nat) O l.

(** The sub-element reached from [e] by a path of child indices. *)
Fixpoint subelement (e : Element) (path : list nat) : option Element :=
  match path with
  | [] => Some e
  | i :: p =>
      match nth_error (children e) i with
      | Some c => subelement c p
      | None => None
      end
  end.

(** The elements of a document in document order (pre-order). *)
Fixpoint preorder (e : Element) : list Element :=
  match e with
  | Elem _ _ cs =>
      e :: (fix walk (l : list Element) : list Element :=
              match l with
              | [] => []
              | c :: r => preorder c ++ walk r
              end) cs
  end.

(** The parent-child pairs of a document, each child in document order. *)
Fixpoint parent_child (e : Element) : list (Element * Element) :=
  match e with
  | Elem _ _ cs =>
      (fix walk (l : list Element) : list (Element * Element) :=
         match l with
         | [] => []
         | c :: r => (e, c) :: parent_child c ++ walk r
         end) cs
  end.

(** Document order and parent-child pairs of a list of siblings. *)
Definition preorders (l : list Element) : list Element :=
  List.concat (map preorder l).

Definition parent_children (e : Element) (l : list Element)
  : list (Element * Element) :=
  List.concat (map (fun c => (e, c) :: parent_child c) l).

(** ** Induction over documents *)

Section ElementInduction.

Variable P : Element -> Prop.
Hypothesis step :
  forall t a cs, Forall P cs -> P (Elem t a cs).

Fixpoint Element_forall_ind (e : Element) : P e :=
  match e with
  | Elem t a cs =>
      step t a cs
        ((fix all (l : list Element) : Forall P l :=
            match l with
            | [] => List.Forall_nil P
            | c :: r => List.Forall_cons P c r (Element_forall_ind c) (all r)
            end) cs)
  end.

End ElementInduction.

(** ** The renderer, [xml_to_png.py] *)

Module Renderer.
Import PyStr.

(** The colour palette [colors]. *)
Definition colors : list (string * string) :=
  [ ("graphs", "#F8F9FA"); ("graph", "#E3F2FD"); ("channel", "#E0F2F1");
    ("gpu", "#E8F5E9"); ("cpu", "#F3E5F5"); ("pci", "#FFEBEE");
    ("nvlink", "#FFF3E0"); ("net", "#FFE0B2"); ("nic", "#FFE0B2") ].

(** [colors.get(dev, 'white')]. *)
Definition color_of (dev : string) : string :=
  match dict_get colors dev with
  | Some c => c
  | None => "white"
  end.

(** The value shown in a row: the loop body's [v] after the length test. *)
Definition shown_value (v : string) : string :=
  if (30 <? String.length v)%nat then slice_to 27 v +:+ "..." else v.

(** One row of the label table. *)
Definition row (k v : string) : string :=
  "<TR><TD ALIGN=" +:+ dq +:+ "LEFT" +:+ dq +:+ "><FONT POINT-SIZE="
    +:+ dq +:+ "10" +:+ dq +:+ ">" +:+ k +:+ "</FONT></TD>"
    +:+ "<TD ALIGN=" +:+ dq +:+ "LEFT" +:+ dq +:+ "><FONT POINT-SIZE="
    +:+ dq +:+ "10" +:+ dq +:+ ">" +:+ v +:+ "</FONT></TD></TR>".

(** [format_attributes(attrs)]. *)
Definition format_attributes (attrs : list (string * string)) : string :=
  match attrs with
  | [] => ""
  | _ => join (map (fun kv => row (fst kv) (shown_value (snd kv))) attrs)
  end.

(** The table [attr_map] of [build_topology]. *)
Definition attr_map : list (string * string) :=
  [ ("cpu", "numaid"); ("pci", "busid"); ("gpu", "dev");
    ("nvlink", "target"); ("net", "name"); ("nic", "name");
    ("graph", "id") ].

(** The variable [res] of [build_topology] once the identifier has been
    looked up and sanitised: [None], or the attribute value with every
    [':'] replaced by ['_'] (possibly the empty string). *)
Definition res_of (e : Element) : option string :=
  match dict_get attr_map (tag e) with
  | Some attr_name =>
      if truthy attr_name then
        match element_get e attr_name with
        | Some r => if truthy r then Some (replace ":" "_" r) else Some r
        | None => None
        end
      else None
  | None => None
  end.

(** [node_name = f"{dev}_{res}" if res else dev]. *)
Definition node_name (e : Element) : string :=
  match res_of e with
  | Some r => if truthy r then tag e +:+ "_" +:+ r else tag e
  | None => tag e
  end.

(** [dev.upper() if dev in ('gpu', 'cpu') else dev.capitalize()]. *)
Definition base_title (dev : string) : string :=
  if String.eqb dev "gpu" || String.eqb dev "cpu"
  then upper dev else capitalize dev.

(** [title], after the [if res:] suffixing. *)
Definition title (e : Element) : string :=
  match res_of e with
  | Some r => if truthy r then base_title (tag e) +:+ " " +:+ r
              else base_title (tag e)
  | None => base_title (tag e)
  end.

Definition indent : string := "            ".

(** [label]: the table when there are attribute rows, else the bare title. *)
Definition label (e : Element) : string :=
  let attrs_html := format_attributes (attrib e) in
  if truthy attrs_html then
    "<<TABLE BORDER=" +:+ dq +:+ "0" +:+ dq +:+ " CELLBORDER=" +:+ dq
      +:+ "1" +:+ dq +:+ " CELLSPACING=" +:+ dq +:+ "0" +:+ dq
      +:+ " CELLPADDING=" +:+ dq +:+ "4" +:+ dq +:+ ">" +:+ nl
      +:+ indent +:+ "<TR><TD BGCOLOR=" +:+ dq +:+ color_of (tag e) +:+ dq
      +:+ "><B>" +:+ title e +:+ "</B></TD></TR>" +:+ nl
      +:+ indent +:+ attrs_html +:+ nl
      +:+ indent +:+ "</TABLE>>"
  else "<<B>" +:+ title e +:+ "</B>>".

(** A statement of the graph body. Keyword arguments are kept in the order
    of the call. *)
Inductive Stmt : Type :=
  | AttrStmt (kw : option string) (attrs : list (string * string))
  | NodeStmt (name : string) (node_label : string)
             (attrs : list (string * string))
  | EdgeStmt (tail_name head_name : string)
             (attrs : list (string * string)).

Definition Digraph : Type := list Stmt.

(** The statement that [graph.node(node_name, label=label, shape='box',
    style='rounded,filled', fillcolor=..., penwidth='1.5')] adds for an
    element. *)
Definition node_stmt (e : Element) : Stmt :=
  NodeStmt (node_name e) (label e)
    [ ("shape", "box"); ("style", "rounded,filled");
      ("fillcolor", color_of (tag e)); ("penwidth", "1.5") ].

(** The statement that [graph.edge(parent_node, node_name, penwidth='1.5',
    color='#666666', arrowsize='0.7')] adds. *)
Definition edge_stmt (parent_node name : string) : Stmt :=
  EdgeStmt parent_node name
    [ ("penwidth", "1.5"); ("color", "#666666"); ("arrowsize", "0.7") ].

Definition graph_node (graph : Digraph) (e : Element) : Digraph :=
  graph ++ [node_stmt e].

Definition graph_edge (graph : Digraph) (parent_node name : string)
  : Digraph :=
  graph ++ [edge_stmt parent_node name].

(** [build_topology(graph, parent_element, parent_node, rank)]: the graph
    after the call. *)
Fixpoint build_topology (graph : Digraph) (parent_element : Element)
         (parent_node : option string) (rank : Z) {struct parent_element}
  : Digraph :=
  match parent_element with
  | Elem _ _ cs =>
      let name := node_name parent_element in
      let graph1 := graph_node graph parent_element in
      let graph2 :=
        match parent_node with
        | Some p => graph_edge graph1 p name
        | None => graph1
        end in
      (fix each_child (g : Digraph) (l : list Element) : Digraph :=
         match l with
         | [] => g
         | child_element :: r =>
             each_child
               (build_topology g child_element (Some name) (rank + 1)) r
         end) graph2 cs
  end.

(** The loop over the children, as a function of its own. *)
Fixpoint each_child (name : string) (rank : Z) (g : Digraph)
         (l : list Element) : Digraph :=
  match l with
  | [] => g
  | child_element :: r =>
      each_child name rank
        (build_topology g child_element (Some name) (rank + 1)) r
  end.

(** Number of [graph.node] and of [graph.edge] statements in a graph. *)
Definition is_node (s : Stmt) : bool :=
  match s with NodeStmt _ _ _ => true | _ => false end.

Definition is_edge (s : Stmt) : bool :=
  match s with EdgeStmt _ _ _ => true | _ => false end.

Definition node_count (g : Digraph) : nat :=
  List.length (List.filter is_node g).
Definition edge_count (g : Digraph) : nat :=
  List.length (List.filter is_edge g).

(** The graph that [main] hands to [graph.render], for a parsed [root]. *)
Definition main_graph (root : Element) : Digraph :=
  let graph : Digraph := [] in
  let graph :=
    graph ++ [ AttrStmt None
                 [ ("rankdir", "TB"); ("splines", "ortho");
                   ("nodesep", "0.5"); ("ranksep", "0.7");
                   ("concentrate", "true"); ("bgcolor", "white");
                   ("fontname", "Helvetica") ] ] in
  let graph :=
    graph ++ [ AttrStmt (Some "node")
                 [ ("shape", "box"); ("style", "rounded,filled");
                   ("fontname", "Helvetica"); ("margin", "0.2") ] ] in
  let graph :=
    graph ++ [ AttrStmt (Some "edge")
                 [ ("fontname", "Helvetica"); ("color", "#666666") ] ] in
  build_topology graph root None 0.

End Renderer.

(** ** Python's [getopt.getopt], short options only

    The renderer calls [getopt.getopt(sys.argv[1:], "hi:o:")] with no long
    options. [None] stands for a raised [GetoptError]. *)

Module Getopt.

Definition Opts : Type := list (string * string).

(** [short_has_arg(opt, shortopts)]: the first position of [opt] in
    [shortopts] (a [':'] never matches) tells whether a [':'] follows. *)
Fixpoint short_has_arg (opt : ascii) (shortopts : string) : option bool :=
  match shortopts with
  | EmptyString => None
  | String c rest =>
      if Ascii.eqb opt c && negb (Ascii.eqb c ":")
      then Some (String.prefix ":" rest)
      else short_has_arg opt rest
  end.

(** [do_shorts(opts, optstring, shortopts, args)]. An option that takes an
    argument consumes the rest of [optstring], or the next word when
    nothing is left, and ends the loop. *)
Fixpoint do_shorts (opts : Opts) (optstring shortopts : string)
         (args : list string) : option (Opts * list string) :=
  match optstring with
  | EmptyString => Some (opts, args)
  | String opt optstring' =>
      match short_has_arg opt shortopts with
      | None => None
      | Some true =>
          match optstring' with
          | EmptyString =>
              match args with
              | [] => None
              | a :: args' =>
                  Some (opts ++ [(String "-" (String opt ""), a)], args')
              end
          | _ =>
              Some (opts ++ [(String "-" (String opt ""), optstring')], args)
          end
      | Some false =>
          do_shorts (opts ++ [(String "-" (String opt ""), "")])
                    optstring' shortopts args
      end
  end.

(** The [while] loop of [getopt]; the outer [None] means that [fuel]
    iterations did not reach the end of the loop. With an empty list of
    long options every word that starts with ["--"], other than ["--"]
    itself, raises. *)
Fixpoint getopt_loop (fuel : nat) (opts : Opts) (args : list string)
         (shortopts : string) : option (option (Opts * list string)) :=
  match fuel with
  | O => None
  | S fuel' =>
      match args with
      | [] => Some (Some (opts, args))
      | a :: rest =>
          if String.prefix "-" a && negb (String.eqb a "-") then
            if String.eqb a "--" then Some (Some (opts, rest))
            else if String.prefix "--" a then Some None
            else
              match do_shorts opts (substring 1 (String.length a - 1) a)
                              shortopts rest with
              | None => Some None
              | Some (opts', args') =>
                  getopt_loop fuel' opts' args' shortopts
              end
          else Some (Some (opts, args))
      end
  end.

(** [getopt.getopt(args, shortopts)]. Every iteration drops at least one
    word, so one more iteration than there are words is enough
    ([getopt_loop_fuel] below). *)
Definition getopt (args : list string) (shortopts : string)
  : option (Opts * list string) :=
  match getopt_loop (S (List.length args)) [] args shortopts with
  | Some r => r
  | None => None
  end.

End Getopt.

(** ** The renderer's command line, the [__main__] block of [xml_to_png.py] *)

Module RendererCli.
Import PyStr Getopt.

(** How the script ends: [sys.exit(code)], or the call [main(input_file,
    output_file)], which parses and renders. *)
Inductive Ending : Type :=
  | SysExit (code : Z)
  | CallMain (input_file output_file : string).

(** Lines printed, then the ending. *)
Definition Run : Type := (list string * Ending)%type.

(** The line that [usage()] prints. *)
Definition usage_text : string :=
  "Usage: python3 xml_to_png_pretty.py -i input_file_name -o output_file_name".

(** The [for opt, arg in opts] loop: [None] when ['-h'] is met, else the
    final [input_file] and [output_file]. *)
Fixpoint scan_opts (opts : Opts) (input_file output_file : option string)
  : option (option string * option string) :=
  match opts with
  | [] => Some (input_file, output_file)
  | (opt, arg) :: r =>
      if String.eqb opt "-h" then None
      else if String.eqb opt "-i" then scan_opts r (Some arg) output_file
      else if String.eqb opt "-o" then scan_opts r input_file (Some arg)
      else scan_opts r input_file output_file
  end.

(** The script, run with [sys.argv = argv]. *)
Definition script (argv : list string) : Run :=
  if negb (List.length argv =? 5)%nat then ([usage_text], SysExit 1)
  else
    match getopt (tl argv) "hi:o:" with
    | None => ([usage_text], SysExit 1)
    | Some (opts, args) =>
        match scan_opts opts None None with
        | None => ([usage_text], SysExit 0)
        | Some (input_file, output_file) =>
            match input_file, output_file with
            | Some i, Some o =>
                if truthy i && truthy o then ([], CallMain i o)
                else ([usage_text], SysExit 1)
            | _, _ => ([usage_text], SysExit 1)
            end
        end
    end.

(** The options that [getopt] reads off a command line; none when it
    raises. *)
Definition flags (argv : list string) : list string :=
  match getopt (tl argv) "hi:o:" with
  | Some (opts, _) => map fst opts
  | None => []
  end.

(** Whether option [o] is among them. *)
Definition has_flag (o : string) (argv : list string) : bool :=
  existsb (String.eqb o) (flags argv).

End RendererCli.

(** ** The trigger, [dump_topo.py] *)

Module Trigger.
Import PyStr.

(** What [torch.cuda] answers on the machine of the process. *)
Record Torch : Type := {
  cuda_is_available : bool;
  cuda_device_count : Z
}.

Inductive Exn : Type :=
  | KeyError (key : string)
  | ValueError (text : string).

(** What a process does that others can observe. The calls into
    [torch.cuda] and [torch.distributed] are recorded and taken to
    return. *)
Inductive Event : Type :=
  | Print (line : string)
  | SetDevice (device : Z)
  | InitProcessGroup (backend : string)
  | Barrier
  | DestroyProcessGroup.

Inductive Ending : Type :=
  | Returned
  | SysExit (code : Z)
  | Raised (e : Exn).

(** Exit status of the interpreter for each ending. *)
Definition exit_code (e : Ending) : Z :=
  match e with
  | Returned => 0
  | SysExit c => c
  | Raised _ => 1
  end.

Record State : Type := {
  environ : gmap string string;
  trace : list Event
}.

(** Computations over the process state that may stop early. *)
Definition M (A : Type) : Type := State -> State * (A + Ending).

#[local] Instance M_ret : MRet M := fun A a st => (st, inl a).
#[local] Instance M_bind : MBind M := fun A B f m st =>
  match m st with
  | (st', inl a) => f a st'
  | (st', inr e) => (st', inr e)
  end.

Definition stop {A : Type} (e : Ending) : M A := fun st => (st, inr e).

Definition emit (ev : Event) : M unit := fun st =>
  ({| environ := environ st; trace := trace st ++ [ev] |}, inl tt).

Definition print (line : string) : M unit := emit (Print line).

Definition sys_exit {A : Type} (code : Z) : M A := stop (SysExit code).

(** [os.environ[key] = value]. *)
Definition setenv (key value : string) : M unit := fun st =>
  ({| environ := <[key := value]> (environ st); trace := trace st |},
   inl tt).

Definition when (b : bool) (m : M unit) : M unit :=
  if b then m else mret tt.

Section WithInt.

(** Python's [int] on a [str]; [None] is a [ValueError]. *)
Variable int : string -> option Z.

(** [int(os.environ[key])]. *)
Definition environ_int (key : string) : M Z := fun st =>
  match environ st !! key with
  | None => (st, inr (Raised (KeyError key)))
  | Some text =>
      match int text with
      | None => (st, inr (Raised (ValueError text)))
      | Some z => (st, inl z)
      end
  end.

(** [main(out_file)]. *)
Definition main (torch : Torch) (out_file : string) : M unit :=
  rank ← environ_int "RANK";
  local_rank ← environ_int "LOCAL_RANK";
  when (rank =? 0) (setenv "NCCL_TOPO_DUMP_FILE" out_file);;
  (if negb (cuda_is_available torch) then
     print "CUDA is not available. Run this on a GPU machine.";;
     sys_exit 1
   else mret tt);;
  let ndev := cuda_device_count torch in
  world_size ← environ_int "WORLD_SIZE";
  (if world_size >? ndev then
     when (rank =? 0)
          (print ("Error: world size (" +:+ str_int world_size
                    +:+ ") is greater than number of GPUs ("
                    +:+ str_int ndev +:+ ")."));;
     sys_exit 1
   else mret tt);;
  emit (SetDevice local_rank);;
  emit (InitProcessGroup "nccl");;
  emit Barrier;;
  emit DestroyProcessGroup;;
  when (rank =? 0) (print ("NCCL topology written to: " +:+ out_file)).

(** The [__main__] block, run with [sys.argv = argv]. *)
Definition script (torch : Torch) (argv : list string) : M unit :=
  if negb (List.length argv =? 2)%nat then
    print "Usage: torchrun --nproc_per_node=<num_gpus> dump_topo.py <output_file>";;
    sys_exit 1
  else
    match argv with
    | _ :: out_file :: _ => main torch out_file
    | _ => mret tt
    end.

(** A process started with environment [env]: its final state and
    ending. *)
Definition run (m : M unit) (env : gmap string string)
  : State * Ending :=
  match m {| environ := env; trace := [] |} with
  | (st, inl _) => (st, Returned)
  | (st, inr e) => (st, e)
  end.

(** The lines the process printed, in order. *)
Definition printed (r : State * Ending) : list string :=
  omap (fun ev => match ev with Print l => Some l | _ => None end)
       (trace (fst r)).

Definition ending (r : State * Ending) : Ending := snd r.

(** [int(os.environ[key])] evaluates to [z] in [env]. *)
Definition env_int (env : gmap string string) (key : string) (z : Z)
  : Prop :=
  exists text, env !! key = Some text /\ int text = Some z.

End WithInt.

(** The state after the first three statements of [main]: only the
    dump destination may have been set. *)
Definition after_setup (rank : Z) (out_file : string)
           (env : gmap string string) : State :=
  {| environ := if rank =? 0
                then <["NCCL_TOPO_DUMP_FILE" := out_file]> env
                else env;
     trace := [] |}.

(** A reader of plain decimal numerals with an optional sign, one of the
    texts that [int] accepts; used to run the model on examples. *)
Fixpoint digits_value (acc : Z) (s : string) : option Z :=
  match s with
  | EmptyString => Some acc
  | String c r =>
      let n := nat_of_ascii c in
      if (48 <=? n)%nat && (n <=? 57)%nat
      then digits_value (10 * acc + Z.of_nat (n - 48)) r
      else None
  end.

Definition int_decimal (s : string) : option Z :=
  match s with
  | EmptyString => None
  | String "-" (String c r) => Z.opp <$> digits_value 0 (String c r)
  | String "+" (String c r) => digits_value 0 (String c r)
  | _ => digits_value 0 s
  end.

End Trigger.

(** ** The statements of a walk, read off the document *)

Module Walk.
Import PyStr Renderer.

(** The statements one call adds, as a function of the element and of the
    parent's node name alone. *)
Fixpoint walk_stmts (e : Element) (parent_node : option string)
  : list Stmt :=
  match e with
  | Elem _ _ cs =>
      node_stmt e
        :: match parent_node with
           | Some p => [edge_stmt p (node_name e)]
           | None => []
           end
        ++ (fix each (l : list Element) : list Stmt :=
              match l with
              | [] => []
              | c :: r => walk_stmts c (Some (node_name e)) ++ each r
              end) cs
  end.

Definition children_stmts (name : string) (l : list Element) : list Stmt :=
  List.concat (map (fun c => walk_stmts c (Some name)) l).

(** The edge statement of a parent-child pair. *)
Definition pair_edge (pc : Element * Element) : Stmt :=
  edge_stmt (node_name (fst pc)) (node_name (snd pc)).

Definition incoming (e : Element) (parent_node : option string)
  : list Stmt :=
  match parent_node with
  | Some p => [edge_stmt p (node_name e)]
  | None => []
  end.

End Walk.

(** ** Sample inputs *)

Module Samples.
Import Trigger.

(** A document in which two gpu elements with the same [dev] sit under
    different pci elements. *)
Definition two_gpu_0 : Element :=
  Elem "system" [("version", "1")]
    [ Elem "pci" [("busid", "0000:01:00.0")]
        [ Elem "gpu" [("dev", "0"); ("rank", "0")] [] ];
      Elem "pci" [("busid", "0000:02:00.0")]
        [ Elem "gpu" [("dev", "0"); ("rank", "1")] [] ] ].

(** A gpu element whose [dev] attribute is there with an empty value, as
    in [<gpu dev=""/>]. *)
Definition gpu_empty_dev : Element := Elem "gpu" [("dev", "")] [].

(** A machine without CUDA, and the environment of the process of rank 1
    in a launch of two processes. *)
Definition no_gpu : Torch :=
  {| cuda_is_available := false; cuda_device_count := 0 |}.

Definition rank_1_of_2 : gmap string string :=
  {[ "RANK" := "1"; "LOCAL_RANK" := "1"; "WORLD_SIZE" := "2" ]}.

(** Eight devices, and the environment of a process of a launch of nine. *)
Definition eight_gpus : Torch :=
  {| cuda_is_available := true; cuda_device_count := 8 |}.

Definition rank_of_9 (rank : string) : gmap string string :=
  {[ "RANK" := rank; "LOCAL_RANK" := rank; "WORLD_SIZE" := "9" ]}.

(** Two devices, and the environment of a process of a launch of two. *)
Definition two_gpus : Torch :=
  {| cuda_is_available := true; cuda_device_count := 2 |}.

Definition rank_of_2 (rank : string) : gmap string string :=
  {[ "RANK" := rank; "LOCAL_RANK" := rank; "WORLD_SIZE" := "2" ]}.



End Samples.

(** ** Vocabulary for the further properties *)

Module Naming.
Import PyStr Renderer.

(** [c in s]. *)
Fixpoint has_char (c : ascii) (s : string) : bool :=
  match s with
  | EmptyString => false
  | String d r => Ascii.eqb d c || has_char c r
  end.

(** The identifier that names and titles carry: [res] when the test
    [if res:] passes. *)
Definition identifier (e : Element) : option string :=
  match res_of e with
  | Some r => if truthy r then Some r else None
  | None => None
  end.


(** Statements added by [graph.attr]. *)
Definition is_attr (s : Stmt) : bool :=
  match s with AttrStmt _ _ => true | _ => false end.

End Naming.

(** * Properties *)

Lemma size_Elem t a cs : size (Elem t a cs) = S (sizes cs).
Proof.
  reflexivity.
Qed.

Lemma preorder_Elem t a cs :
  preorder (Elem t a cs) = Elem t a cs :: preorders cs.
Proof.
  simpl. f_equal. unfold preorders.
  induction cs as [|c r IH]; simpl; [reflexivity|]. now rewrite IH.
Qed.

Lemma parent_child_Elem t a cs :
  parent_child (Elem t a cs) = parent_children (Elem t a cs) cs.
Proof.
  assert (Hwalk : forall (e : Element) l,
             (fix walk (l : list Element) : list (Element * Element) :=
                match l with
                | [] => []
                | c :: r => (e, c) :: parent_child c ++ walk r
                end) l = parent_children e l).
  { intros e l. unfold parent_children.
    induction l as [|c r IH]; simpl; [reflexivity|]. now rewrite IH. }
  simpl. apply Hwalk.
Qed.

Lemma preorder_length e : List.length (preorder e) = size e.
Proof.
  induction e as [t a cs IH] using Element_forall_ind.
  rewrite preorder_Elem, size_Elem. simpl. f_equal.
  unfold preorders. induction IH as [|c r Hc _ IHr]; simpl; [reflexivity|].
  now rewrite length_app, Hc, IHr.
Qed.

Lemma parent_child_length e :
  List.length (parent_child e) = (size e - 1)%nat.
Proof.
  induction e as [t a cs IH] using Element_forall_ind.
  rewrite parent_child_Elem, size_Elem. simpl. rewrite Nat.sub_0_r.
  unfold parent_children. generalize (Elem t a cs) as e. intros e.
  induction IH as [|c r Hc _ IHr]; simpl; [reflexivity|].
  rewrite length_app, Hc, IHr. pose proof (preorder_length c) as Hp.
  destruct c as [t' a' cs']. rewrite size_Elem in *. simpl. lia.
Qed.

(** ** The tree walk *)

Module RendererFacts.
Import PyStr Renderer Walk.

Lemma build_topology_Elem graph t a cs parent_node rank :
  build_topology graph (Elem t a cs) parent_node rank =
  each_child (node_name (Elem t a cs)) rank
    (match parent_node with
     | Some p =>
         graph_edge (graph_node graph (Elem t a cs)) p
                    (node_name (Elem t a cs))
     | None => graph_node graph (Elem t a cs)
     end) cs.
Proof.
  simpl. generalize (node_name (Elem t a cs)) as name.
  generalize (graph_node graph (Elem t a cs)) as g1. intros g1 name.
  generalize (match parent_node with
              | Some p => graph_edge g1 p name
              | None => g1
              end) as g2.
  induction cs as [|c r IH]; intros g2; simpl; [reflexivity|].
  apply IH.
Qed.

Lemma walk_stmts_Elem t a cs parent_node :
  walk_stmts (Elem t a cs) parent_node =
  node_stmt (Elem t a cs)
    :: match parent_node with
       | Some p => [edge_stmt p (node_name (Elem t a cs))]
       | None => []
       end
    ++ children_stmts (node_name (Elem t a cs)) cs.
Proof.
  simpl. do 2 f_equal. unfold children_stmts.
  generalize (node_name (Elem t a cs)) as name. intros name.
  induction cs as [|c r IH]; simpl; [reflexivity|]. now rewrite IH.
Qed.

(** A call only appends to the graph, and what it appends does not depend
    on the graph or on [rank]. *)
Lemma build_topology_appends e :
  forall graph parent_node rank,
    build_topology graph e parent_node rank =
    graph ++ walk_stmts e parent_node.
Proof.
  induction e as [t a cs IH] using Element_forall_ind.
  intros graph parent_node rank.
  rewrite build_topology_Elem, walk_stmts_Elem.
  set (name := node_name (Elem t a cs)).
  assert (Hchildren : forall g,
             each_child name rank g cs = g ++ children_stmts name cs).
  { unfold children_stmts.
    induction IH as [|c r Hc _ IHr]; intros g; simpl.
    - now rewrite app_nil_r.
    - rewrite IHr, Hc. now rewrite <- app_assoc. }
  rewrite Hchildren. unfold graph_edge, graph_node.
  destruct parent_node as [p|]; simpl; now rewrite <- !app_assoc.
Qed.

End RendererFacts.

Module RendererWalk.
Import PyStr Renderer Walk Samples RendererFacts.

Lemma filter_node_incoming e parent_node :
  List.filter is_node (incoming e parent_node) = [].
Proof. destruct parent_node; reflexivity. Qed.

Lemma filter_edge_incoming e parent_node :
  List.filter is_edge (incoming e parent_node) = incoming e parent_node.
Proof. destruct parent_node; reflexivity. Qed.

(** The node statements of a walk are those of the elements, in document
    order. *)
Lemma walk_nodes e :
  forall parent_node,
    List.filter is_node (walk_stmts e parent_node) =
    map node_stmt (preorder e).
Proof.
  induction e as [t a cs IH] using Element_forall_ind.
  intros parent_node. rewrite walk_stmts_Elem, preorder_Elem.
  fold (incoming (Elem t a cs) parent_node).
  cbn [List.filter is_node node_stmt map]. f_equal.
  rewrite List.filter_app, filter_node_incoming. simpl.
  unfold children_stmts, preorders.
  generalize (node_name (Elem t a cs)) as name. intros name.
  induction IH as [|c r Hc _ IHr]; simpl; [reflexivity|].
  now rewrite List.filter_app, map_app, Hc, IHr.
Qed.

(** The edge statements of a walk: the incoming edge when there is a
    parent, then one edge per parent-child pair. *)
Lemma walk_edges e :
  forall parent_node,
    List.filter is_edge (walk_stmts e parent_node) =
    incoming e parent_node ++ map pair_edge (parent_child e).
Proof.
  induction e as [t a cs IH] using Element_forall_ind.
  intros parent_node. rewrite walk_stmts_Elem, parent_child_Elem.
  fold (incoming (Elem t a cs) parent_node).
  cbn [List.filter is_edge node_stmt].
  rewrite List.filter_app, filter_edge_incoming. f_equal.
  unfold children_stmts, parent_children.
  change (node_name (Elem t a cs))
    with (node_name (fst (Elem t a cs, Elem t a cs))).
  generalize (Elem t a cs) as e. intros e. simpl fst.
  induction IH as [|c r Hc _ IHr]; simpl; [reflexivity|].
  rewrite List.filter_app, map_app, Hc, IHr. reflexivity.
Qed.

Lemma main_graph_nodes root :
  List.filter is_node (main_graph root) = map node_stmt (preorder root).
Proof.
  unfold main_graph. rewrite build_topology_appends.
  rewrite List.filter_app. simpl List.filter at 1. apply walk_nodes.
Qed.

Lemma main_graph_edges root :
  List.filter is_edge (main_graph root) =
  map pair_edge (parent_child root).
Proof.
  unfold main_graph. rewrite build_topology_appends.
  rewrite List.filter_app. simpl List.filter at 1.
  now rewrite walk_edges.
Qed.

(** C1. For a document of N elements the tree walk of the renderer makes
    exactly N [graph.node] calls, one per element in document order, and
    exactly N-1 [graph.edge] calls, one per parent-child pair; the root
    gets no incoming edge. *)
Theorem walk_creates_n_nodes_and_n_minus_1_edges (root : Element) :
  node_count (main_graph root) = size root /\
  edge_count (main_graph root) = (size root - 1)%nat /\
  List.filter is_node (main_graph root) = map node_stmt (preorder root) /\
  List.filter is_edge (main_graph root) =
    map pair_edge (parent_child root) /\
  (forall graph rank,
      node_count (build_topology graph root None rank) =
        (node_count graph + size root)%nat /\
      edge_count (build_topology graph root None rank) =
        (edge_count graph + (size root - 1))%nat).
Proof.
  unfold node_count, edge_count.
  rewrite main_graph_nodes, main_graph_edges.
  rewrite !length_map, preorder_length, parent_child_length.
  repeat split; try reflexivity.
  - rewrite build_topology_appends, List.filter_app, length_app.
    now rewrite walk_nodes, length_map, preorder_length.
  - rewrite build_topology_appends, List.filter_app, length_app.
    rewrite walk_edges. simpl.
    now rewrite length_map, parent_child_length.
Qed.

(** C10. The graph that the tree walk produces does not depend on the
    initial value of the [rank] argument of [build_topology]: for every
    document, starting graph and parent, two values of [rank] give the
    same sequence of node and edge statements. *)
Theorem build_topology_independent_of_rank
        (graph : Digraph) (e : Element) (parent_node : option string)
        (rank1 rank2 : Z) :
  build_topology graph e parent_node rank1 =
  build_topology graph e parent_node rank2.
Proof.
  rewrite (build_topology_appends e graph parent_node rank1).
  rewrite (build_topology_appends e graph parent_node rank2).
  reflexivity.
Qed.

(** C8. The naming scheme is not injective across tree positions: there is
    a document with two different elements at different positions that
    have the same tag and the same sanitised identifier and get the same
    node name, so that the graph holds two different node statements under
    one name; and for every document the node statements are those of the
    naming scheme applied element by element, with no adjustment. *)
Theorem node_names_collide :
  (exists (root : Element) (p1 p2 : list nat) (e1 e2 : Element),
      p1 <> p2 /\ e1 <> e2 /\
      subelement root p1 = Some e1 /\ subelement root p2 = Some e2 /\
      tag e1 = tag e2 /\ res_of e1 = res_of e2 /\
      node_name e1 = node_name e2 /\
      node_stmt e1 <> node_stmt e2 /\
      In (node_stmt e1) (main_graph root) /\
      In (node_stmt e2) (main_graph root)) /\
  (forall root : Element,
      List.filter is_node (main_graph root) =
      map node_stmt (preorder root)).
Proof.
  split; [|apply main_graph_nodes].
  exists two_gpu_0, [0%nat; 0%nat], [1%nat; 0%nat].
  exists (Elem "gpu" [("dev", "0"); ("rank", "0")] []).
  exists (Elem "gpu" [("dev", "0"); ("rank", "1")] []).
  repeat split; try reflexivity; try discriminate.
  - vm_compute. tauto.
  - vm_compute. tauto.
Qed.

End RendererWalk.

(** ** Labels, names and titles *)

Module LabelFacts.
Import PyStr Renderer Naming Samples.

Lemma substring_0_length n : forall s,
  (n <= String.length s)%nat -> String.length (substring 0 n s) = n.
Proof.
  induction n as [|n IH]; intros s Hn.
  - now destruct s.
  - destruct s as [|c r]; simpl in *; [lia|].
    f_equal. apply IH. lia.
Qed.

Lemma substring_0_prefix n : forall s,
  exists rest, s = substring 0 n s +:+ rest.
Proof.
  induction n as [|n IH]; intros s.
  - exists s. now destruct s.
  - destruct s as [|c r]; simpl.
    + now exists "".
    + destruct (IH r) as [rest Hrest]. exists rest.
      rewrite Hrest at 1. reflexivity.
Qed.

Lemma append_length s1 s2 :
  String.length (s1 +:+ s2) = (String.length s1 + String.length s2)%nat.
Proof.
  induction s1 as [|c r IH]; [reflexivity|].
  change (S (String.length (r +:+ s2))
          = S (String.length r + String.length s2)).
  now rewrite IH.
Qed.

Lemma format_attributes_rows attrs :
  format_attributes attrs =
  join (map (fun kv => row (fst kv) (shown_value (snd kv))) attrs).
Proof. now destruct attrs. Qed.

Lemma join_cons row1 rows : join (row1 :: rows) = row1 +:+ join rows.
Proof. reflexivity. Qed.

Lemma format_attributes_cons k v rest :
  format_attributes ((k, v) :: rest) =
  row k (shown_value v) +:+ format_attributes rest.
Proof.
  rewrite (format_attributes_rows rest). unfold format_attributes.
  cbn [map fst snd]. apply join_cons.
Qed.

Lemma format_attributes_nonempty attrs :
  attrs <> [] -> truthy (format_attributes attrs) = true.
Proof.
  destruct attrs as [|[k v] rest]; [congruence|]. intros _.
  rewrite format_attributes_cons. reflexivity.
Qed.

(** C2. Every attribute is rendered as one row of the label table, in
    order, and the value cell of the row of an attribute value [v] shows:
    when [v] has more than 30 characters, exactly its first 27 characters
    followed by ["..."]; when it has 30 or fewer, [v] unmodified. The rows
    are what the label table of the node contains. *)
Theorem long_values_are_truncated :
  format_attributes [] = "" /\
  (forall k v rest,
      (30 < String.length v)%nat ->
      exists first tail,
        v = first +:+ tail /\ String.length first = 27%nat /\
        format_attributes ((k, v) :: rest) =
        ("<TR><TD ALIGN=" +:+ dq +:+ "LEFT" +:+ dq +:+ "><FONT POINT-SIZE="
           +:+ dq +:+ "10" +:+ dq +:+ ">" +:+ k +:+ "</FONT></TD>"
           +:+ "<TD ALIGN=" +:+ dq +:+ "LEFT" +:+ dq +:+ "><FONT POINT-SIZE="
           +:+ dq +:+ "10" +:+ dq +:+ ">" +:+ (first +:+ "...")
           +:+ "</FONT></TD></TR>")
        +:+ format_attributes rest) /\
  (forall k v rest,
      (String.length v <= 30)%nat ->
      format_attributes ((k, v) :: rest) =
      ("<TR><TD ALIGN=" +:+ dq +:+ "LEFT" +:+ dq +:+ "><FONT POINT-SIZE="
         +:+ dq +:+ "10" +:+ dq +:+ ">" +:+ k +:+ "</FONT></TD>"
         +:+ "<TD ALIGN=" +:+ dq +:+ "LEFT" +:+ dq +:+ "><FONT POINT-SIZE="
         +:+ dq +:+ "10" +:+ dq +:+ ">" +:+ v +:+ "</FONT></TD></TR>")
      +:+ format_attributes rest) /\
  (forall e,
      attrib e <> [] ->
      label e =
      "<<TABLE BORDER=" +:+ dq +:+ "0" +:+ dq +:+ " CELLBORDER=" +:+ dq
        +:+ "1" +:+ dq +:+ " CELLSPACING=" +:+ dq +:+ "0" +:+ dq
        +:+ " CELLPADDING=" +:+ dq +:+ "4" +:+ dq +:+ ">" +:+ nl
        +:+ "            " +:+ "<TR><TD BGCOLOR=" +:+ dq
        +:+ color_of (tag e) +:+ dq +:+ "><B>" +:+ title e
        +:+ "</B></TD></TR>" +:+ nl
        +:+ "            " +:+ format_attributes (attrib e) +:+ nl
        +:+ "            " +:+ "</TABLE>>").
Proof.
  split; [reflexivity|]. split; [|split].
  - intros k v rest Hv.
    assert (Hlt : (30 <? String.length v)%nat = true)
      by now apply Nat.ltb_lt.
    destruct (substring_0_prefix 27 v) as [tail Htail].
    exists (substring 0 27 v), tail.
    split; [exact Htail|]. split; [apply substring_0_length; lia|].
    rewrite format_attributes_cons. unfold shown_value, slice_to.
    rewrite Hlt. reflexivity.
  - intros k v rest Hv.
    assert (Hge : (30 <? String.length v)%nat = false)
      by now apply Nat.ltb_ge.
    rewrite format_attributes_cons. unfold shown_value.
    rewrite Hge. reflexivity.
  - intros e Hne. unfold label. cbv zeta.
    rewrite (format_attributes_nonempty _ Hne). reflexivity.
Qed.

Lemma long_values_are_truncated_witness :
  exists first tail,
    "0123456789abcdefghijklmnopqrstuvwxyz" = first +:+ tail /\
    String.length first = 27%nat /\
    format_attributes [("busid", "0123456789abcdefghijklmnopqrstuvwxyz")] =
    ("<TR><TD ALIGN=" +:+ dq +:+ "LEFT" +:+ dq +:+ "><FONT POINT-SIZE="
       +:+ dq +:+ "10" +:+ dq +:+ ">" +:+ "busid" +:+ "</FONT></TD>"
       +:+ "<TD ALIGN=" +:+ dq +:+ "LEFT" +:+ dq +:+ "><FONT POINT-SIZE="
       +:+ dq +:+ "10" +:+ dq +:+ ">" +:+ (first +:+ "...")
       +:+ "</FONT></TD></TR>")
    +:+ format_attributes [].
Proof.
  destruct long_values_are_truncated as (_ & Hlong & _).
  apply (Hlong "busid" "0123456789abcdefghijklmnopqrstuvwxyz" []).
  simpl. lia.
Defined.

Lemma truthy_true s : truthy s = true <-> s <> "".
Proof. destruct s; simpl; split; congruence. Qed.

Lemma truthy_false s : truthy s = false <-> s = "".
Proof. destruct s; simpl; split; congruence. Qed.

Lemma attr_map_names_truthy key d :
  dict_get attr_map d = Some key -> truthy key = true.
Proof.
  unfold attr_map. cbn [dict_get].
  repeat (destruct (String.eqb _ d); [intros [= <-]; reflexivity|]).
  discriminate.
Qed.

Lemma replace_truthy a b s : truthy (replace a b s) = truthy s.
Proof. now destruct s. Qed.

(** The variable [res] in terms of the table and of the attributes. *)
Lemma res_of_present e key v :
  dict_get attr_map (tag e) = Some key ->
  element_get e key = Some v ->
  res_of e = Some (replace ":" "_" v).
Proof.
  intros Hkey Hv. unfold res_of.
  rewrite Hkey, (attr_map_names_truthy _ _ Hkey), Hv.
  now destruct v.
Qed.

Lemma res_of_absent e key :
  dict_get attr_map (tag e) = Some key ->
  element_get e key = None ->
  res_of e = None.
Proof.
  intros Hkey Hv. unfold res_of.
  now rewrite Hkey, (attr_map_names_truthy _ _ Hkey), Hv.
Qed.

Lemma res_of_no_entry e :
  dict_get attr_map (tag e) = None -> res_of e = None.
Proof. intros Hkey. unfold res_of. now rewrite Hkey. Qed.

(** C5, as stated, fails where the identifying attribute is present with an
    empty value: the node name is the bare type, not the type followed by
    ['_'] and the (empty) identifier. *)
Lemma empty_identifier_gives_bare_name :
  dict_get attr_map (tag gpu_empty_dev) = Some "dev" /\
  element_get gpu_empty_dev "dev" = Some "" /\
  node_name gpu_empty_dev = "gpu" /\
  node_name gpu_empty_dev
    <> tag gpu_empty_dev +:+ "_" +:+ replace ":" "_" "".
Proof. repeat split; try reflexivity. discriminate. Qed.

(** C5 (amended). The node name of an element is ["{type}_{identifier}"]
    when the identifying attribute of its type (cpu: numaid, pci: busid,
    gpu: dev, nvlink: target, net and nic: name, graph: id) is present
    with a non-empty value, the identifier being that value with every
    [':'] replaced by ['_']; it is just ["{type}"] when the attribute is
    absent or empty, or when the type has no table entry. A pci element
    with busid ["0000:00:1f.0"] is named ["pci_0000_00_1f.0"]. *)
Theorem node_name_scheme (e : Element) :
  attr_map = [ ("cpu", "numaid"); ("pci", "busid"); ("gpu", "dev");
               ("nvlink", "target"); ("net", "name"); ("nic", "name");
               ("graph", "id") ] /\
  (forall key v,
      dict_get attr_map (tag e) = Some key ->
      element_get e key = Some v ->
      v <> "" ->
      node_name e = tag e +:+ "_" +:+ replace ":" "_" v) /\
  (forall key,
      dict_get attr_map (tag e) = Some key ->
      element_get e key = None \/ element_get e key = Some "" ->
      node_name e = tag e) /\
  (dict_get attr_map (tag e) = None -> node_name e = tag e) /\
  node_name (Elem "pci" [("busid", "0000:00:1f.0")] [])
    = "pci_0000_00_1f.0".
Proof.
  split; [reflexivity|]. split; [|split; [|split; [|reflexivity]]].
  - intros key v Hkey Hv Hne. unfold node_name.
    rewrite (res_of_present _ _ _ Hkey Hv), replace_truthy.
    now apply truthy_true in Hne as ->.
  - intros key Hkey [Hv|Hv]; unfold node_name.
    + now rewrite (res_of_absent _ _ Hkey Hv).
    + now rewrite (res_of_present _ _ _ Hkey Hv).
  - intros Hkey. unfold node_name. now rewrite (res_of_no_entry _ Hkey).
Qed.

Lemma node_name_scheme_witness :
  node_name (Elem "gpu" [("dev", "0:1")] []) = "gpu_0_1" /\
  node_name (Elem "gpu" [("id", "0")] []) = "gpu" /\
  node_name gpu_empty_dev = "gpu" /\
  node_name (Elem "channel" [("id", "0")] []) = "channel".
Proof.
  refine (conj _ (conj _ (conj _ _))).
  - destruct (node_name_scheme (Elem "gpu" [("dev", "0:1")] []))
      as (_ & Hsome & _).
    apply (Hsome "dev" "0:1"); [reflexivity | reflexivity | discriminate].
  - destruct (node_name_scheme (Elem "gpu" [("id", "0")] []))
      as (_ & _ & Hnone & _).
    apply (Hnone "dev"); [reflexivity | left; reflexivity].
  - destruct (node_name_scheme gpu_empty_dev) as (_ & _ & Hnone & _).
    apply (Hnone "dev"); [reflexivity | right; reflexivity].
  - destruct (node_name_scheme (Elem "channel" [("id", "0")] []))
      as (_ & _ & _ & Hentry & _).
    apply Hentry. reflexivity.
Defined.








End LabelFacts.

(** ** The renderer's command line *)

Module CliFacts.
Import PyStr Getopt RendererCli.

(** Every iteration of the loop of [getopt] drops at least one word. *)
Lemma do_shorts_length optstring shortopts :
  forall opts args opts' args',
    do_shorts opts optstring shortopts args = Some (opts', args') ->
    (List.length args' <= List.length args)%nat.
Proof.
  induction optstring as [|opt rest IH]; intros opts args opts' args' H.
  - injection H as <- <-. lia.
  - simpl in H. destruct (short_has_arg opt shortopts) as [[|]|];
      [| |discriminate].
    + destruct rest.
      * destruct args as [|a args0]; [discriminate|].
        injection H as <- <-. simpl. lia.
      * injection H as <- <-. lia.
    + eapply IH. exact H.
Qed.

(** [getopt] ends: as many iterations as there are words, plus one, are
    enough. *)
Lemma getopt_loop_fuel shortopts fuel :
  forall opts args,
    (List.length args < fuel)%nat ->
    exists r, getopt_loop fuel opts args shortopts = Some r.
Proof.
  induction fuel as [|fuel IH]; intros opts args Hlen; [lia|].
  simpl. destruct args as [|a rest]; [eauto|].
  destruct (String.prefix "-" a && negb (String.eqb a "-")); [|eauto].
  destruct (String.eqb a "--"); [eauto|].
  destruct (String.prefix "--" a); [eauto|].
  destruct (do_shorts opts _ shortopts rest) as [[opts' args']|] eqn:Hd;
    [|eauto].
  apply IH. apply do_shorts_length in Hd. simpl in Hlen. lia.
Qed.

Lemma getopt_total args shortopts :
  exists r,
    getopt_loop (S (List.length args)) [] args shortopts = Some r /\
    getopt args shortopts = r.
Proof.
  destruct (getopt_loop_fuel shortopts (S (List.length args)) [] args)
    as [r Hr]; [lia|].
  exists r. split; [exact Hr|]. unfold getopt. now rewrite Hr.
Qed.

Lemma has_flag_In o argv :
  has_flag o argv = true <-> In o (flags argv).
Proof.
  unfold has_flag. rewrite existsb_exists. split.
  - intros (x & Hx & Heq). apply String.eqb_eq in Heq. now subst.
  - intros H. exists o. split; [exact H | apply String.eqb_refl].
Qed.

Lemma has_flag_parsed o argv :
  has_flag o argv = true ->
  exists opts args,
    getopt (tl argv) "hi:o:" = Some (opts, args) /\ In o (map fst opts).
Proof.
  intros H. apply has_flag_In in H. unfold flags in H.
  destruct (getopt (tl argv) "hi:o:") as [[opts args]|]; [|contradiction].
  now exists opts, args.
Qed.

Lemma scan_opts_help opts :
  forall input_file output_file,
    In "-h" (map fst opts) -> scan_opts opts input_file output_file = None.
Proof.
  induction opts as [|[opt arg] r IH]; intros i o Hin; [contradiction|].
  simpl in *. destruct (String.eqb opt "-h") eqn:Hh; [reflexivity|].
  destruct Hin as [Hin|Hin].
  - subst opt. discriminate.
  - destruct (String.eqb opt "-i"); [now apply IH|].
    destruct (String.eqb opt "-o"); now apply IH.
Qed.

Lemma scan_opts_no_help opts :
  forall input_file output_file,
    scan_opts opts input_file output_file = None -> In "-h" (map fst opts).
Proof.
  induction opts as [|[opt arg] r IH]; intros i o Hscan; [discriminate|].
  simpl in *. destruct (String.eqb opt "-h") eqn:Hh.
  - left. now apply String.eqb_eq.
  - right. destruct (String.eqb opt "-i"); [now apply IH in Hscan|].
    destruct (String.eqb opt "-o"); now apply IH in Hscan.
Qed.

Lemma scan_opts_output opts :
  forall input_file output_file input_file' output_file',
    scan_opts opts input_file output_file
      = Some (input_file', output_file') ->
    ~ In "-o" (map fst opts) ->
    output_file' = output_file.
Proof.
  induction opts as [|[opt arg] r IH]; intros i o i' o' Hscan Hno.
  - now injection Hscan as _ <-.
  - simpl in *. destruct (String.eqb opt "-h"); [discriminate|].
    destruct (String.eqb opt "-i").
    + eapply IH; [exact Hscan | tauto].
    + destruct (String.eqb opt "-o") eqn:Ho.
      * apply String.eqb_eq in Ho. tauto.
      * eapply IH; [exact Hscan | tauto].
Qed.

(** C4. The code misses the claim: with the single argument [-h] the
    script prints the usage text and exits with code 1, because the test
    on the number of arguments runs before the [-h] branch of the option
    loop; that branch, where a command line of four arguments reaches it,
    exits with code 0. *)
Lemma help_flag_exits_1 :
  has_flag "-h" ["xml_to_png.py"; "-h"] = true /\
  script ["xml_to_png.py"; "-h"] = ([usage_text], SysExit 1) /\
  script ["xml_to_png.py"; "-h"; "a"; "b"; "c"] = ([usage_text], SysExit 0).
Proof. refine (conj _ (conj _ _)); reflexivity. Qed.

(** The [-h] branch of the option loop: once the command line has four
    arguments among which [getopt] reads [-h], the script prints the usage
    text and exits with code 0. *)
Theorem help_flag_exits_0 (argv : list string) :
  List.length argv = 5%nat ->
  has_flag "-h" argv = true ->
  script argv = ([usage_text], SysExit 0).
Proof.
  intros Hlen Hh. apply has_flag_parsed in Hh as (opts & args & Hg & Hin).
  unfold script. rewrite Hlen, Hg. simpl.
  now rewrite (scan_opts_help opts None None Hin).
Qed.

Lemma help_flag_exits_0_witness :
  script ["xml_to_png.py"; "-h"; "-i"; "topo.xml"; "out"]
    = ([usage_text], SysExit 0).
Proof.
  apply (help_flag_exits_0
           ["xml_to_png.py"; "-h"; "-i"; "topo.xml"; "out"]);
    reflexivity.
Defined.

(** C7, as stated, fails: with an input flag, no output flag and the flag
    [-h], the script exits with code 0. *)
Lemma input_flag_and_help_exits_0 :
  has_flag "-i" ["xml_to_png.py"; "-i"; "foo.xml"; "-h"; "x"] = true /\
  has_flag "-o" ["xml_to_png.py"; "-i"; "foo.xml"; "-h"; "x"] = false /\
  script ["xml_to_png.py"; "-i"; "foo.xml"; "-h"; "x"]
    = ([usage_text], SysExit 0).
Proof. refine (conj _ (conj _ _)); reflexivity. Qed.

(** C7 (amended). When the renderer is invoked with an input flag but no
    output flag, it prints the usage text and never calls [main], so it
    never parses or renders; and it exits with code 1 when the flag [-h]
    is not given either, as with only [-i foo.xml] on the command line. *)
Theorem input_without_output_prints_usage (argv : list string) :
  has_flag "-i" argv = true ->
  has_flag "-o" argv = false ->
  fst (script argv) = [usage_text] /\
  (forall input_file output_file,
      snd (script argv) <> CallMain input_file output_file) /\
  (has_flag "-h" argv = false -> snd (script argv) = SysExit 1).
Proof.
  intros Hi Ho.
  assert (Hno : ~ In "-o" (flags argv)).
  { intros Hin. apply has_flag_In in Hin. congruence. }
  apply has_flag_parsed in Hi as (opts & args & Hg & _).
  unfold flags in Hno. unfold has_flag, flags, script. rewrite Hg in *.
  destruct (negb (List.length argv =? 5)%nat);
    [repeat split; discriminate|].
  destruct (scan_opts opts None None) as [[i o]|] eqn:Hscan.
  - apply scan_opts_output in Hscan as ->; [|exact Hno].
    destruct i; repeat split; discriminate.
  - apply scan_opts_no_help in Hscan.
    split; [reflexivity|]. split; [discriminate|].
    intros Hh. exfalso.
    assert (Ht : existsb (String.eqb "-h") (map fst opts) = true).
    { apply existsb_exists. exists "-h". split; [exact Hscan|reflexivity]. }
    congruence.
Qed.

Lemma input_without_output_prints_usage_witness :
  fst (script ["xml_to_png.py"; "-i"; "foo.xml"]) = [usage_text] /\
  snd (script ["xml_to_png.py"; "-i"; "foo.xml"]) = SysExit 1 /\
  snd (script ["xml_to_png.py"; "-i"; "foo.xml"; "bar"; "baz"])
    = SysExit 1.
Proof.
  destruct (input_without_output_prints_usage
              ["xml_to_png.py"; "-i"; "foo.xml"]) as (Hu & _ & Hx);
    [reflexivity | reflexivity |].
  destruct (input_without_output_prints_usage
              ["xml_to_png.py"; "-i"; "foo.xml"; "bar"; "baz"])
    as (_ & _ & Hy); [reflexivity | reflexivity |].
  refine (conj Hu (conj (Hx _) (Hy _))); reflexivity.
Defined.

End CliFacts.

(** ** The trigger *)

Module TriggerFacts.
Import PyStr Trigger Samples.

Section WithInt.

Variable int : string -> option Z.

Lemma environ_int_reads st key z :
  env_int int (environ st) key z ->
  environ_int int key st = (st, inl z).
Proof.
  intros (text & Hlookup & Hint). unfold environ_int.
  now rewrite Hlookup, Hint.
Qed.

Lemma env_int_after_setup rank out_file env key z :
  key <> "NCCL_TOPO_DUMP_FILE" ->
  env_int int env key z ->
  env_int int (environ (after_setup rank out_file env)) key z.
Proof.
  intros Hne (text & Hlookup & Hint). exists text. split; [|exact Hint].
  unfold after_setup. simpl. destruct (rank =? 0); [|exact Hlookup].
  rewrite lookup_insert_ne; [exact Hlookup | congruence].
Qed.

(** [main] when CUDA is missing. *)
Lemma main_without_cuda torch out_file env rank local_rank :
  env_int int env "RANK" rank ->
  env_int int env "LOCAL_RANK" local_rank ->
  cuda_is_available torch = false ->
  run (main int torch out_file) env =
  ({| environ := environ (after_setup rank out_file env);
      trace := [Print "CUDA is not available. Run this on a GPU machine."]
   |}, SysExit 1).
Proof.
  intros Hrank Hlocal Hcuda. unfold run, main, mbind, M_bind.
  rewrite (environ_int_reads {| environ := env; trace := [] |}
             "RANK" rank Hrank).
  rewrite (environ_int_reads {| environ := env; trace := [] |}
             "LOCAL_RANK" local_rank Hlocal).
  rewrite Hcuda. unfold after_setup.
  destruct (rank =? 0); reflexivity.
Qed.

(** [main] when CUDA is there and the world is larger than the number
    of devices. *)
Lemma main_world_too_large torch out_file env rank local_rank world_size :
  env_int int env "RANK" rank ->
  env_int int env "LOCAL_RANK" local_rank ->
  env_int int env "WORLD_SIZE" world_size ->
  cuda_is_available torch = true ->
  world_size > cuda_device_count torch ->
  run (main int torch out_file) env =
  ({| environ := environ (after_setup rank out_file env);
      trace :=
        if rank =? 0
        then [Print ("Error: world size (" +:+ str_int world_size
                       +:+ ") is greater than number of GPUs ("
                       +:+ str_int (cuda_device_count torch) +:+ ").")]
        else [] |}, SysExit 1).
Proof.
  intros Hrank Hlocal Hworld Hcuda Hgt.
  apply (env_int_after_setup rank out_file) in Hworld; [|discriminate].
  unfold run, main, mbind, M_bind.
  rewrite (environ_int_reads {| environ := env; trace := [] |}
             "RANK" rank Hrank).
  rewrite (environ_int_reads {| environ := env; trace := [] |}
             "LOCAL_RANK" local_rank Hlocal).
  rewrite Hcuda.
  assert (Hgtb : (world_size >? cuda_device_count torch) = true)
    by (apply Z.gtb_lt; lia).
  unfold after_setup in *.
  destruct (rank =? 0); cbn [when setenv negb mret M_ret environ trace];
    rewrite (environ_int_reads _ "WORLD_SIZE" world_size Hworld);
    rewrite Hgtb; reflexivity.
Qed.

End WithInt.

(** C3, as stated, fails on a machine without CUDA: the world size, 2, is
    greater than the number of devices, 0, and the process of rank 1 is
    not silent, it prints the CUDA diagnostic. *)
Lemma nonzero_rank_not_silent_without_cuda :
  env_int int_decimal rank_1_of_2 "RANK" 1 /\
  env_int int_decimal rank_1_of_2 "WORLD_SIZE" 2 /\
  2 > cuda_device_count no_gpu /\
  printed (run (main int_decimal no_gpu "/tmp/topo.xml") rank_1_of_2)
    = ["CUDA is not available. Run this on a GPU machine."] /\
  ending (run (main int_decimal no_gpu "/tmp/topo.xml") rank_1_of_2)
    = SysExit 1.
Proof.
  refine (conj _ (conj _ (conj _ (conj _ _)))).
  - exists "1". split; reflexivity.
  - exists "2". split; reflexivity.
  - reflexivity.
  - vm_compute. reflexivity.
  - vm_compute. reflexivity.
Qed.

(** C3 (amended). When CUDA is available and WORLD_SIZE is strictly
    greater than the number of devices, every process exits with code 1;
    the process of rank 0 prints the error message and the processes of
    nonzero rank print nothing. *)
Theorem world_size_mismatch_reported_by_rank_0
        (int : string -> option Z) (torch : Torch) (out_file : string)
        (env : gmap string string) (rank local_rank world_size : Z) :
  env_int int env "RANK" rank ->
  env_int int env "LOCAL_RANK" local_rank ->
  env_int int env "WORLD_SIZE" world_size ->
  cuda_is_available torch = true ->
  world_size > cuda_device_count torch ->
  ending (run (main int torch out_file) env) = SysExit 1 /\
  exit_code (ending (run (main int torch out_file) env)) = 1 /\
  (rank = 0 ->
   printed (run (main int torch out_file) env) =
   ["Error: world size (" +:+ str_int world_size
      +:+ ") is greater than number of GPUs ("
      +:+ str_int (cuda_device_count torch) +:+ ")."]) /\
  (rank <> 0 -> printed (run (main int torch out_file) env) = []).
Proof.
  intros Hrank Hlocal Hworld Hcuda Hgt.
  rewrite (main_world_too_large int torch out_file env rank local_rank
             world_size Hrank Hlocal Hworld Hcuda Hgt).
  refine (conj _ (conj _ (conj _ _))); try reflexivity.
  - intros ->. reflexivity.
  - intros Hne. apply Z.eqb_neq in Hne. unfold printed. simpl.
    now rewrite Hne.
Qed.

Lemma world_size_mismatch_reported_by_rank_0_witness :
  printed (run (main int_decimal eight_gpus "/tmp/topo.xml")
               (rank_of_9 "0"))
    = ["Error: world size (9) is greater than number of GPUs (8)."] /\
  printed (run (main int_decimal eight_gpus "/tmp/topo.xml")
               (rank_of_9 "3")) = [] /\
  ending (run (main int_decimal eight_gpus "/tmp/topo.xml")
              (rank_of_9 "3")) = SysExit 1.
Proof.
  destruct (world_size_mismatch_reported_by_rank_0
              int_decimal eight_gpus "/tmp/topo.xml" (rank_of_9 "0") 0 0 9)
    as (_ & _ & Hzero & _);
    [ exists "0"; split; reflexivity | exists "0"; split; reflexivity
    | exists "9"; split; reflexivity | reflexivity | reflexivity | ].
  destruct (world_size_mismatch_reported_by_rank_0
              int_decimal eight_gpus "/tmp/topo.xml" (rank_of_9 "3") 3 3 9)
    as (Hend & _ & _ & Hnonzero);
    [ exists "3"; split; reflexivity | exists "3"; split; reflexivity
    | exists "9"; split; reflexivity | reflexivity | reflexivity | ].
  refine (conj (Hzero eq_refl) (conj (Hnonzero _) Hend)). discriminate.
Defined.

(** C9. When CUDA is unavailable, every process, whatever its rank,
    prints ["CUDA is not available. Run this on a GPU machine."] and exits
    with code 1. *)
Theorem no_cuda_reported_by_every_rank
        (int : string -> option Z) (torch : Torch) (out_file : string)
        (env : gmap string string) (rank local_rank : Z) :
  env_int int env "RANK" rank ->
  env_int int env "LOCAL_RANK" local_rank ->
  cuda_is_available torch = false ->
  printed (run (main int torch out_file) env)
    = ["CUDA is not available. Run this on a GPU machine."] /\
  ending (run (main int torch out_file) env) = SysExit 1 /\
  exit_code (ending (run (main int torch out_file) env)) = 1.
Proof.
  intros Hrank Hlocal Hcuda.
  rewrite (main_without_cuda int torch out_file env rank local_rank
             Hrank Hlocal Hcuda).
  refine (conj _ (conj _ _)); reflexivity.
Qed.

Lemma no_cuda_reported_by_every_rank_witness :
  printed (run (main int_decimal no_gpu "/tmp/topo.xml") (rank_of_9 "0"))
    = ["CUDA is not available. Run this on a GPU machine."] /\
  printed (run (main int_decimal no_gpu "/tmp/topo.xml") (rank_of_9 "5"))
    = ["CUDA is not available. Run this on a GPU machine."] /\
  ending (run (main int_decimal no_gpu "/tmp/topo.xml") (rank_of_9 "5"))
    = SysExit 1.
Proof.
  destruct (no_cuda_reported_by_every_rank
              int_decimal no_gpu "/tmp/topo.xml" (rank_of_9 "0") 0 0)
    as (Hzero & _);
    [ exists "0"; split; reflexivity | exists "0"; split; reflexivity
    | reflexivity | ].
  destruct (no_cuda_reported_by_every_rank
              int_decimal no_gpu "/tmp/topo.xml" (rank_of_9 "5") 5 5)
    as (Hfive & Hend & _);
    [ exists "5"; split; reflexivity | exists "5"; split; reflexivity
    | reflexivity | ].
  exact (conj Hzero (conj Hfive Hend)).
Defined.

End TriggerFacts.

(** * Further properties of the renderer *)

Module RendererMore.
Import PyStr Renderer Walk Naming Samples RendererFacts RendererWalk.
Import LabelFacts.

Lemma append_cons c s t : String c s +:+ t = String c (s +:+ t).
Proof. reflexivity. Qed.

Lemma has_char_append c s t :
  has_char c (s +:+ t) = has_char c s || has_char c t.
Proof.
  induction s as [|d r IH]; [reflexivity|].
  rewrite append_cons. simpl. rewrite IH. now rewrite orb_assoc.
Qed.

Lemma replace_removes a b s :
  a <> b -> has_char a (replace a b s) = false.
Proof.
  intros Hab. induction s as [|d r IH]; [reflexivity|].
  unfold replace in *. simpl. rewrite IH, orb_false_r.
  destruct (Ascii.eqb d a) eqn:Hd.
  - apply Ascii.eqb_neq. congruence.
  - exact Hd.
Qed.

Lemma res_of_cases e r :
  res_of e = Some r ->
  exists key v,
    dict_get attr_map (tag e) = Some key /\
    element_get e key = Some v /\ r = replace ":" "_" v.
Proof.
  unfold res_of. destruct (dict_get attr_map (tag e)) as [key|] eqn:Hkey;
    [|discriminate].
  rewrite (attr_map_names_truthy _ _ Hkey).
  destruct (element_get e key) as [v|] eqn:Hv; [|discriminate].
  intros H. exists key, v. split; [reflexivity|]. split; [exact Hv|].
  destruct v; cbn [truthy] in H; now injection H as <-.
Qed.

(** X1. The sanitised identifier never contains [':'], and neither does the
    node name of an element whose tag contains none. *)
Theorem node_name_has_no_colon (e : Element) :
  (forall r, res_of e = Some r -> has_char ":" r = false) /\
  (has_char ":" (tag e) = false -> has_char ":" (node_name e) = false).
Proof.
  assert (Hres : forall r, res_of e = Some r -> has_char ":" r = false).
  { intros r Hr. apply res_of_cases in Hr as (key & v & _ & _ & ->).
    apply replace_removes. discriminate. }
  split; [exact Hres|]. intros Htag. unfold node_name.
  destruct (res_of e) as [r|] eqn:Hr; [|exact Htag].
  destruct (truthy r); [|exact Htag].
  rewrite !has_char_append, Htag, (Hres r eq_refl). reflexivity.
Qed.

Lemma node_name_has_no_colon_witness :
  has_char ":" (node_name (Elem "pci" [("busid", "0000:00:1f.0")] []))
    = false.
Proof.
  apply (node_name_has_no_colon (Elem "pci" [("busid", "0000:00:1f.0")] [])).
  reflexivity.
Defined.

Lemma identifier_name e :
  node_name e = match identifier e with
                | Some r => tag e +:+ "_" +:+ r
                | None => tag e
                end.
Proof.
  unfold node_name, identifier. destruct (res_of e) as [r|]; [|reflexivity].
  now destruct (truthy r).
Qed.

(** A string is cut in one way only at its first ['_']. *)
Lemma cut_at_underscore s1 :
  forall s2 r1 r2,
    has_char "_" s1 = false -> has_char "_" s2 = false ->
    s1 +:+ "_" +:+ r1 = s2 +:+ "_" +:+ r2 ->
    s1 = s2 /\ r1 = r2.
Proof.
  induction s1 as [|c s1 IH]; intros s2 r1 r2 H1 H2 Heq.
  - destruct s2 as [|d s2].
    + split; [reflexivity|]. now injection Heq.
    + rewrite append_cons in Heq. injection Heq as Hd _.
      simpl in H2. rewrite <- Hd in H2. discriminate.
  - destruct s2 as [|d s2].
    + rewrite append_cons in Heq. injection Heq as Hc _.
      simpl in H1. rewrite Hc in H1. discriminate.
    + rewrite !append_cons in Heq. injection Heq as Hcd Hrest.
      simpl in H1, H2. apply orb_false_iff in H1 as [_ H1].
      apply orb_false_iff in H2 as [_ H2].
      destruct (IH s2 r1 r2 H1 H2 Hrest) as [-> ->]. now subst.
Qed.

(** X2. Among elements whose tags contain no ['_'], two elements get the
    same node name only if they have the same tag and the same
    identifier: the collisions of the naming scheme are those of equal
    type and identifier. *)
Theorem node_name_collisions_share_tag_and_identifier (e1 e2 : Element) :
  has_char "_" (tag e1) = false ->
  has_char "_" (tag e2) = false ->
  node_name e1 = node_name e2 ->
  tag e1 = tag e2 /\ identifier e1 = identifier e2.
Proof.
  intros H1 H2. rewrite !identifier_name.
  destruct (identifier e1) as [r1|], (identifier e2) as [r2|]; intros Heq.
  - destruct (cut_at_underscore _ _ _ _ H1 H2 Heq) as [-> ->]. now split.
  - rewrite <- Heq, has_char_append in H2.
    apply orb_false_iff in H2 as [_ H2]. discriminate.
  - rewrite Heq, has_char_append in H1.
    apply orb_false_iff in H1 as [_ H1]. discriminate.
  - now split.
Qed.

Lemma node_name_collisions_share_tag_and_identifier_witness :
  tag (Elem "gpu" [("dev", "0"); ("rank", "0")] [])
    = tag (Elem "gpu" [("dev", "0"); ("rank", "1")] []) /\
  identifier (Elem "gpu" [("dev", "0"); ("rank", "0")] [])
    = identifier (Elem "gpu" [("dev", "0"); ("rank", "1")] []).
Proof.
  apply (node_name_collisions_share_tag_and_identifier
           (Elem "gpu" [("dev", "0"); ("rank", "0")] [])
           (Elem "gpu" [("dev", "0"); ("rank", "1")] []));
    reflexivity.
Defined.

(** X3. A call of [build_topology] keeps the statements that the graph
    already holds, in place, and appends the statements it would add to an
    empty graph: what it adds does not depend on the graph it is given. *)
Theorem build_topology_extends_graph
        (graph : Digraph) (e : Element) (parent_node : option string)
        (rank : Z) :
  build_topology graph e parent_node rank =
  graph ++ build_topology [] e parent_node rank.
Proof.
  rewrite (build_topology_appends e graph parent_node rank).
  rewrite (build_topology_appends e [] parent_node rank).
  reflexivity.
Qed.




Lemma substring_0_append s t :
  substring 0 (String.length s) (s +:+ t) = s.
Proof.
  induction s as [|c r IH].
  - now destruct t.
  - rewrite append_cons. simpl. now rewrite IH.
Qed.

(** X5. No value is shown with more than 30 characters, a shown value is
    shown unchanged again, and it starts like the value it stands for:
    the two agree on their first 27 characters. *)
Theorem shown_value_bounded (v : string) :
  (String.length (shown_value v) <= 30)%nat /\
  shown_value (shown_value v) = shown_value v /\
  slice_to 27 (shown_value v) = slice_to 27 v.
Proof.
  unfold shown_value. destruct (30 <? String.length v)%nat eqn:Hlen.
  - apply Nat.ltb_lt in Hlen.
    assert (H27 : String.length (slice_to 27 v) = 27%nat)
      by (apply substring_0_length; lia).
    assert (H30 : String.length (slice_to 27 v +:+ "...") = 30%nat)
      by (rewrite append_length, H27; reflexivity).
    rewrite H30. split; [lia|]. split; [reflexivity|].
    unfold slice_to in *. clear Hlen H30.
    generalize dependent (substring 0 27 v). intros s Hs.
    rewrite <- Hs. apply substring_0_append.
  - rewrite Hlen. apply Nat.ltb_ge in Hlen. now split.
Qed.

Lemma preorder_head e : In e (preorder e).
Proof. destruct e as [t a cs]. rewrite preorder_Elem. now left. Qed.

Lemma preorder_child t a cs c x :
  In c cs -> In x (preorder c) -> In x (preorder (Elem t a cs)).
Proof.
  intros Hc Hx. rewrite preorder_Elem. right. unfold preorders.
  apply in_concat. exists (preorder c). split; [|exact Hx].
  apply in_map_iff. now exists c.
Qed.

Lemma parent_child_child t a cs c pc :
  In c cs -> In pc (parent_child c) -> In pc (parent_child (Elem t a cs)).
Proof.
  intros Hc Hpc. rewrite parent_child_Elem. unfold parent_children.
  apply in_concat. exists ((Elem t a cs, c) :: parent_child c).
  split; [|now right]. apply in_map_iff. now exists c.
Qed.

Lemma parent_child_direct t a cs c :
  In c cs -> In (Elem t a cs, c) (parent_child (Elem t a cs)).
Proof.
  intros Hc. rewrite parent_child_Elem. unfold parent_children.
  apply in_concat. exists ((Elem t a cs, c) :: parent_child c).
  split; [|now left]. apply in_map_iff. now exists c.
Qed.

(** Both ends of a parent-child pair are elements of the document. *)
Lemma parent_child_in_preorder e :
  forall p c, In (p, c) (parent_child e) ->
              In p (preorder e) /\ In c (preorder e).
Proof.
  induction e as [t a cs IH] using Element_forall_ind. intros p c Hin.
  rewrite parent_child_Elem in Hin. unfold parent_children in Hin.
  apply in_concat in Hin as (l & Hl & Hin).
  apply in_map_iff in Hl as (c0 & <- & Hc0).
  destruct Hin as [Heq|Hin].
  - injection Heq as <- <-. split; [apply preorder_head|].
    eapply preorder_child; [exact Hc0 | apply preorder_head].
  - rewrite List.Forall_forall in IH.
    destruct (IH c0 Hc0 p c Hin) as [Hp Hc].
    split; eapply preorder_child; eassumption.
Qed.

Lemma subelement_in_preorder path :
  forall root e, subelement root path = Some e -> In e (preorder root).
Proof.
  induction path as [|i path IH]; intros root e Hsub; simpl in Hsub.
  - injection Hsub as <-. apply preorder_head.
  - destruct (nth_error (children root) i) as [c|] eqn:Hc; [|discriminate].
    destruct root as [t a cs]. simpl in Hc.
    eapply preorder_child; [eapply nth_error_In; exact Hc | now apply IH].
Qed.

Lemma subelement_parent_child path :
  forall root parent i c,
    subelement root path = Some parent ->
    nth_error (children parent) i = Some c ->
    In (parent, c) (parent_child root).
Proof.
  induction path as [|j path IH]; intros root parent i c Hsub Hc;
    simpl in Hsub.
  - injection Hsub as <-. destruct root as [t a cs]. simpl in Hc.
    apply parent_child_direct. eapply nth_error_In; exact Hc.
  - destruct (nth_error (children root) j) as [c0|] eqn:Hc0; [|discriminate].
    destruct root as [t a cs]. simpl in Hc0.
    eapply parent_child_child; [eapply nth_error_In; exact Hc0|].
    eapply IH; eassumption.
Qed.

Lemma node_in_main_graph root e :
  In e (preorder root) -> In (node_stmt e) (main_graph root).
Proof.
  intros He. eapply (proj1 (filter_In is_node _ _)).
  rewrite main_graph_nodes. now apply in_map.
Qed.

Lemma edge_in_main_graph root p c :
  In (p, c) (parent_child root) ->
  In (edge_stmt (node_name p) (node_name c)) (main_graph root).
Proof.
  intros Hpc. eapply (proj1 (filter_In is_edge _ _)).
  rewrite main_graph_edges. now apply (in_map pair_edge) in Hpc.
Qed.



(** X7. Every element of the document, at whatever position, has its node
    statement in the graph, and every child has the edge statement from the
    node name of its parent to its own. *)
Theorem every_position_is_drawn (root : Element) (path : list nat)
        (e : Element) :
  subelement root path = Some e ->
  In (node_stmt e) (main_graph root) /\
  (forall i c,
      nth_error (children e) i = Some c ->
      In (node_stmt c) (main_graph root) /\
      In (edge_stmt (node_name e) (node_name c)) (main_graph root)).
Proof.
  intros Hsub. split.
  - apply node_in_main_graph. eapply subelement_in_preorder; exact Hsub.
  - intros i c Hc.
    pose proof (subelement_parent_child path root e i c Hsub Hc) as Hpc.
    split; [|now apply edge_in_main_graph].
    apply node_in_main_graph.
    now destruct (parent_child_in_preorder root e c Hpc).
Qed.

Lemma every_position_is_drawn_witness :
  In (node_stmt (Elem "gpu" [("dev", "0"); ("rank", "1")] []))
     (main_graph two_gpu_0).
Proof.
  apply (every_position_is_drawn two_gpu_0 [1%nat; 0%nat]
           (Elem "gpu" [("dev", "0"); ("rank", "1")] [])).
  reflexivity.
Defined.

(** X8. The graph that [main] renders consists of the three attribute
    statements set before the walk, followed by the statements of the walk
    and nothing else: 2N+2 statements for a document of N elements, the
    first after the attribute statements being the node of the root. *)
Theorem main_graph_composition (root : Element) :
  firstn 3 (main_graph root) =
    [ AttrStmt None
        [ ("rankdir", "TB"); ("splines", "ortho"); ("nodesep", "0.5");
          ("ranksep", "0.7"); ("concentrate", "true");
          ("bgcolor", "white"); ("fontname", "Helvetica") ];
      AttrStmt (Some "node")
        [ ("shape", "box"); ("style", "rounded,filled");
          ("fontname", "Helvetica"); ("margin", "0.2") ];
      AttrStmt (Some "edge")
        [ ("fontname", "Helvetica"); ("color", "#666666") ] ] /\
  skipn 3 (main_graph root) = build_topology [] root None 0 /\
  nth_error (main_graph root) 3 = Some (node_stmt root) /\
  List.length (List.filter is_attr (main_graph root)) = 3%nat /\
  List.length (main_graph root) = (2 * size root + 2)%nat.
Proof.
  unfold main_graph. rewrite !build_topology_appends.
  cbn [app]. split; [reflexivity|]. split; [reflexivity|].
  assert (Hhead : exists rest, walk_stmts root None = node_stmt root :: rest).
  { destruct root as [t a cs]. rewrite walk_stmts_Elem. eauto. }
  destruct Hhead as [rest Hrest]. split; [now rewrite Hrest|].
  assert (Hsplit : forall l : list Stmt,
             List.length l =
             (List.length (List.filter is_attr l)
              + List.length (List.filter is_node l)
              + List.length (List.filter is_edge l))%nat).
  { induction l as [|[kw at_|n lb at_|tl hd at_] l IH]; simpl; lia. }
  assert (Hnodes := walk_nodes root None).
  assert (Hedges := walk_edges root None). simpl in Hedges.
  assert (Hattr : List.filter is_attr (walk_stmts root None) = []).
  { clear Hrest.
    assert (Hno : forall e p, List.filter is_attr (walk_stmts e p) = []).
    { induction e as [t a cs IH] using Element_forall_ind. intros p.
      rewrite walk_stmts_Elem. simpl. rewrite List.filter_app.
      replace (List.filter is_attr
                 match p with
                 | Some p0 => [edge_stmt p0 (node_name (Elem t a cs))]
                 | None => []
                 end) with (@nil Stmt) by now destruct p.
      simpl. unfold children_stmts.
      generalize (node_name (Elem t a cs)) as name. intros name.
      induction IH as [|c r Hc _ IHr]; simpl; [reflexivity|].
      now rewrite List.filter_app, Hc, IHr. }
    apply Hno. }
  split.
  - simpl. now rewrite Hattr.
  - simpl. rewrite (Hsplit (walk_stmts root None)), Hattr, Hnodes, Hedges.
    rewrite !length_map, preorder_length, parent_child_length. simpl.
    destruct root as [t a cs]. rewrite size_Elem. lia.
Qed.

End RendererMore.

(** * Further properties of the renderer's command line *)

Module CliMore.
Import PyStr Getopt RendererCli CliFacts.

(** Where the final [input_file] and [output_file] of the option loop
    come from: the initial value, or the argument of a flag. *)
Lemma scan_opts_origin opts :
  forall input_file output_file input_file' output_file',
    scan_opts opts input_file output_file
      = Some (input_file', output_file') ->
    (input_file' = input_file \/
     exists a, input_file' = Some a /\ In ("-i", a) opts) /\
    (output_file' = output_file \/
     exists b, output_file' = Some b /\ In ("-o", b) opts).
Proof.
  induction opts as [|[opt arg] r IH]; intros i o i' o' Hscan.
  - injection Hscan as <- <-. now split; left.
  - simpl in Hscan. destruct (String.eqb opt "-h"); [discriminate|].
    destruct (String.eqb opt "-i") eqn:Hi.
    + apply String.eqb_eq in Hi as ->.
      destruct (IH _ _ _ _ Hscan) as [[->|(a & -> & Ha)] Hout].
      * split; [right; exists arg; split; [reflexivity | now left]|].
        destruct Hout as [->|(b & -> & Hb)]; [now left|].
        right. exists b. split; [reflexivity | now right].
      * split; [right; exists a; split; [reflexivity | now right]|].
        destruct Hout as [->|(b & -> & Hb)]; [now left|].
        right. exists b. split; [reflexivity | now right].
    + destruct (String.eqb opt "-o") eqn:Ho.
      * apply String.eqb_eq in Ho as ->.
        destruct (IH _ _ _ _ Hscan) as [Hin [->|(b & -> & Hb)]].
        -- split; [|right; exists arg; split; [reflexivity | now left]].
           destruct Hin as [->|(a & -> & Ha)]; [now left|].
           right. exists a. split; [reflexivity | now right].
        -- split; [|right; exists b; split; [reflexivity | now right]].
           destruct Hin as [->|(a & -> & Ha)]; [now left|].
           right. exists a. split; [reflexivity | now right].
      * destruct (IH _ _ _ _ Hscan) as [Hin Hout]. split.
        -- destruct Hin as [->|(a & -> & Ha)]; [now left|].
           right. exists a. split; [reflexivity | now right].
        -- destruct Hout as [->|(b & -> & Hb)]; [now left|].
           right. exists b. split; [reflexivity | now right].
Qed.

Lemma has_flag_false_not_parsed o argv opts args :
  getopt (tl argv) "hi:o:" = Some (opts, args) ->
  has_flag o argv = false <-> ~ In o (map fst opts).
Proof.
  intros Hg. unfold has_flag, flags. rewrite Hg. split.
  - intros Hf Hin. assert (existsb (String.eqb o) (map fst opts) = true).
    { apply existsb_exists. exists o. split; [exact Hin|].
      apply String.eqb_refl. }
    congruence.
  - intros Hno. destruct (existsb _ _) eqn:He; [|reflexivity].
    apply existsb_exists in He as (x & Hx & Heq).
    apply String.eqb_eq in Heq. subst. contradiction.
Qed.

(** X9. With the command line [-i input -o output], in either order, the
    script calls [main(input, output)] and prints nothing itself, whatever
    the two file names are, provided neither is empty; with an empty file
    name it prints the usage text and exits with code 1. *)
Theorem both_flags_call_main (prog input output : string) :
  script [prog; "-i"; input; "-o"; output] =
    (if truthy input && truthy output
     then ([], CallMain input output)
     else ([usage_text], SysExit 1)) /\
  script [prog; "-o"; output; "-i"; input] =
    (if truthy input && truthy output
     then ([], CallMain input output)
     else ([usage_text], SysExit 1)).
Proof.
  split; destruct input, output; reflexivity.
Qed.

(** X10. Every run of the script ends in one of three ways: usage text
    printed once and exit code 0, usage text printed once and exit code 1,
    or nothing printed and [main] called. *)
Theorem script_has_three_outcomes (argv : list string) :
  script argv = ([usage_text], SysExit 0) \/
  script argv = ([usage_text], SysExit 1) \/
  exists input_file output_file,
    script argv = ([], CallMain input_file output_file).
Proof.
  unfold script. destruct (negb (List.length argv =? 5)%nat); [tauto|].
  destruct (getopt (tl argv) "hi:o:") as [[opts args]|]; [|tauto].
  destruct (scan_opts opts None None) as [[[i|] [o|]]|]; try tauto.
  destruct (truthy i && truthy o); [|tauto].
  right. right. now exists i, o.
Qed.

(** X11. [main] is called only for a command line of exactly four
    arguments that [getopt] accepts, without the flag [-h], and only with
    non-empty file names that the command line gives as the arguments of
    [-i] and of [-o]; the script prints nothing before the call. *)
Theorem main_called_only_with_given_files
        (argv : list string) (input_file output_file : string) :
  snd (script argv) = CallMain input_file output_file ->
  List.length argv = 5%nat /\
  fst (script argv) = [] /\
  input_file <> "" /\ output_file <> "" /\
  has_flag "-h" argv = false /\
  exists opts args,
    getopt (tl argv) "hi:o:" = Some (opts, args) /\
    In ("-i", input_file) opts /\ In ("-o", output_file) opts.
Proof.
  unfold script.
  destruct (List.length argv =? 5)%nat eqn:Hlen; [|discriminate].
  apply Nat.eqb_eq in Hlen. simpl.
  destruct (getopt (tl argv) "hi:o:") as [[opts args]|] eqn:Hg;
    [|discriminate].
  destruct (scan_opts opts None None) as [[i o]|] eqn:Hscan;
    [|discriminate].
  destruct i as [i|]; [|discriminate]. destruct o as [o|]; [|discriminate].
  destruct (truthy i) eqn:Hi; [|discriminate].
  destruct (truthy o) eqn:Ho; [|discriminate].
  simpl. intros [= <- <-].
  destruct (scan_opts_origin _ _ _ _ _ Hscan)
    as [[Hin|(a & [= <-] & Hin)] [Hout|(b & [= <-] & Hout)]];
    try discriminate.
  split; [exact Hlen|]. split; [reflexivity|].
  split; [now destruct i|]. split; [now destruct o|]. split.
  - apply (has_flag_false_not_parsed "-h" argv opts args Hg).
    intros Hh. apply (scan_opts_help opts None None) in Hh. congruence.
  - now exists opts, args.
Qed.

Lemma main_called_only_with_given_files_witness :
  List.length ["xml_to_png.py"; "-itopo.xml"; "-o"; "out"; "spare"]
    = 5%nat /\
  has_flag "-h" ["xml_to_png.py"; "-itopo.xml"; "-o"; "out"; "spare"]
    = false.
Proof.
  destruct (main_called_only_with_given_files
              ["xml_to_png.py"; "-itopo.xml"; "-o"; "out"; "spare"]
              "topo.xml" "out") as (Hlen & _ & _ & _ & Hh & _);
    [reflexivity|].
  exact (conj Hlen Hh).
Defined.

(** X12. The script itself ends the process with [sys.exit()] of code 0,
    without calling [main], exactly when it is given four arguments among
    which [getopt] reads the flag [-h]. (A run that calls [main] ends as
    [main] does, which this statement does not cover.) *)
Theorem exit_code_0_iff_help (argv : list string) :
  snd (script argv) = SysExit 0 <->
  List.length argv = 5%nat /\ has_flag "-h" argv = true.
Proof.
  split.
  - unfold script.
    destruct (List.length argv =? 5)%nat eqn:Hlen; [|discriminate].
    apply Nat.eqb_eq in Hlen. simpl.
    destruct (getopt (tl argv) "hi:o:") as [[opts args]|] eqn:Hg;
      [|discriminate].
    destruct (scan_opts opts None None) as [[i o]|] eqn:Hscan.
    + destruct i as [i|], o as [o|]; try discriminate.
      destruct (truthy i && truthy o); discriminate.
    + intros _. split; [exact Hlen|]. apply has_flag_In.
      unfold flags. rewrite Hg. eapply scan_opts_no_help. exact Hscan.
  - intros [Hlen Hh].
    apply has_flag_parsed in Hh as (opts & args & Hg & Hin).
    unfold script. rewrite Hlen, Hg. simpl.
    now rewrite (scan_opts_help opts None None Hin).
Qed.

Lemma exit_code_0_iff_help_witness :
  snd (script ["xml_to_png.py"; "-hi"; "topo.xml"; "-o"; "out"])
    = SysExit 0.
Proof.
  apply (exit_code_0_iff_help
           ["xml_to_png.py"; "-hi"; "topo.xml"; "-o"; "out"]).
  split; reflexivity.
Defined.

End CliMore.

(** * Further properties of the trigger *)

Module TriggerMore.
Import PyStr Trigger Samples TriggerFacts.

Section WithInt.

Variable int : string -> option Z.
Variable torch : Torch.
Variable out_file : string.
Variable env : gmap string string.

(** The run of [main], path by path. *)
Lemma run_main_cases :
  run (main int torch out_file) env =
  let st0 := {| environ := env; trace := [] |} in
  match env !! "RANK" with
  | None => (st0, Raised (KeyError "RANK"))
  | Some rank_text =>
  match int rank_text with
  | None => (st0, Raised (ValueError rank_text))
  | Some rank =>
  match env !! "LOCAL_RANK" with
  | None => (st0, Raised (KeyError "LOCAL_RANK"))
  | Some local_text =>
  match int local_text with
  | None => (st0, Raised (ValueError local_text))
  | Some local_rank =>
  let st1 := after_setup rank out_file env in
  if negb (cuda_is_available torch) then
    ({| environ := environ st1;
        trace := [Print "CUDA is not available. Run this on a GPU machine."]
     |}, SysExit 1)
  else
  match env !! "WORLD_SIZE" with
  | None => (st1, Raised (KeyError "WORLD_SIZE"))
  | Some world_text =>
  match int world_text with
  | None => (st1, Raised (ValueError world_text))
  | Some world_size =>
  if world_size >? cuda_device_count torch then
    ({| environ := environ st1;
        trace :=
          if rank =? 0
          then [Print ("Error: world size (" +:+ str_int world_size
                         +:+ ") is greater than number of GPUs ("
                         +:+ str_int (cuda_device_count torch) +:+ ").")]
          else [] |}, SysExit 1)
  else
    ({| environ := environ st1;
        trace :=
          [SetDevice local_rank; InitProcessGroup "nccl"; Barrier;
           DestroyProcessGroup]
          ++ (if rank =? 0
              then [Print ("NCCL topology written to: " +:+ out_file)]
              else []) |}, Returned)
  end end end end end end.
Proof.
  unfold run, main, mbind, M_bind, environ_int. cbn [environ trace].
  destruct (env !! "RANK") as [rank_text|]; [|reflexivity].
  destruct (int rank_text) as [rank|]; [|reflexivity].
  cbn [environ trace].
  destruct (env !! "LOCAL_RANK") as [local_text|]; [|reflexivity].
  destruct (int local_text) as [local_rank|]; [|reflexivity].
  unfold after_setup. cbn [environ].
  destruct (cuda_is_available torch);
    [|destruct (rank =? 0); reflexivity].
  destruct (rank =? 0);
    cbn [when setenv negb mret M_ret environ trace];
    rewrite ?(lookup_insert_ne env "NCCL_TOPO_DUMP_FILE" "WORLD_SIZE")
      by discriminate;
    (destruct (env !! "WORLD_SIZE") as [world_text|]; [|reflexivity]);
    (destruct (int world_text) as [world_size|]; [|reflexivity]);
    destruct (world_size >? cuda_device_count torch); reflexivity.
Qed.

End WithInt.

Lemma env_int_lookup int env key z :
  env_int int env key z ->
  exists text, env !! key = Some text /\ int text = Some z.
Proof. intros H. exact H. Qed.

(** X13. When CUDA is available and WORLD_SIZE does not exceed the number
    of devices, the process binds its device [LOCAL_RANK], joins the group
    with the nccl backend, passes the barrier and leaves the group, in
    this order; then the process of rank 0, and no other, prints where the
    topology was written; the process ends normally, with exit code 0. *)
Theorem passing_checks_runs_the_barrier
        (int : string -> option Z) (torch : Torch) (out_file : string)
        (env : gmap string string) (rank local_rank world_size : Z) :
  env_int int env "RANK" rank ->
  env_int int env "LOCAL_RANK" local_rank ->
  env_int int env "WORLD_SIZE" world_size ->
  cuda_is_available torch = true ->
  world_size <= cuda_device_count torch ->
  trace (fst (run (main int torch out_file) env)) =
    [SetDevice local_rank; InitProcessGroup "nccl"; Barrier;
     DestroyProcessGroup]
    ++ (if rank =? 0
        then [Print ("NCCL topology written to: " +:+ out_file)]
        else []) /\
  ending (run (main int torch out_file) env) = Returned /\
  exit_code (ending (run (main int torch out_file) env)) = 0.
Proof.
  intros (tr & Hr & Hir) (tl & Hl & Hil) (tw & Hw & Hiw) Hcuda Hle.
  rewrite run_main_cases. cbv zeta.
  rewrite Hr, Hir, Hl, Hil, Hcuda, Hw, Hiw. cbn [negb].
  assert (Hgt : (world_size >? cuda_device_count torch) = false).
  { destruct (world_size >? cuda_device_count torch) eqn:H; [|reflexivity].
    apply Z.gtb_lt in H. lia. }
  rewrite Hgt. repeat split.
Qed.

Lemma passing_checks_runs_the_barrier_witness :
  trace (fst (run (main int_decimal two_gpus "/tmp/topo.xml")
                  (rank_of_2 "1")))
    = [SetDevice 1; InitProcessGroup "nccl"; Barrier; DestroyProcessGroup]
      ++ [] /\
  ending (run (main int_decimal two_gpus "/tmp/topo.xml") (rank_of_2 "1"))
    = Returned.
Proof.
  destruct (passing_checks_runs_the_barrier
              int_decimal two_gpus "/tmp/topo.xml" (rank_of_2 "1") 1 1 2)
    as (Htrace & Hend & _);
    [ exists "1"; split; reflexivity | exists "1"; split; reflexivity
    | exists "2"; split; reflexivity | reflexivity | simpl; lia | ].
  exact (conj Htrace Hend).
Defined.

Ltac split_run :=
  repeat match goal with
         | |- context [match ?x with _ => _ end] => destruct x eqn:?
         end.

(** X14. The only environment variable that a process ever changes is
    NCCL_TOPO_DUMP_FILE. The process of rank 0 sets it to the output path
    as soon as RANK and LOCAL_RANK are read, before any check, so also in
    the runs that end in an error; a process of nonzero rank leaves the
    environment as it is. *)
Theorem only_rank_0_sets_the_dump_file
        (int : string -> option Z) (torch : Torch) (out_file : string)
        (env : gmap string string) :
  (forall key,
      key <> "NCCL_TOPO_DUMP_FILE" ->
      environ (fst (run (main int torch out_file) env)) !! key
        = env !! key) /\
  (forall local_rank,
      env_int int env "RANK" 0 ->
      env_int int env "LOCAL_RANK" local_rank ->
      environ (fst (run (main int torch out_file) env))
        = <["NCCL_TOPO_DUMP_FILE" := out_file]> env) /\
  (forall rank,
      env_int int env "RANK" rank -> rank <> 0 ->
      environ (fst (run (main int torch out_file) env)) = env).
Proof.
  rewrite run_main_cases. cbv zeta. unfold after_setup.
  split; [|split].
  - intros key Hkey. split_run; cbn [fst environ]; try reflexivity;
      now rewrite lookup_insert_ne.
  - intros local_rank (tr & Hr & Hir) (tl & Hl & Hil).
    rewrite Hr, Hir, Hl, Hil. cbn [Z.eqb]. split_run; reflexivity.
  - intros rank (tr & Hr & Hir) Hne. apply Z.eqb_neq in Hne.
    rewrite Hr, Hir, Hne. split_run; reflexivity.
Qed.

Lemma only_rank_0_sets_the_dump_file_witness :
  environ (fst (run (main int_decimal no_gpu "/tmp/topo.xml")
                    (rank_of_9 "0")))
    = <["NCCL_TOPO_DUMP_FILE" := "/tmp/topo.xml"]> (rank_of_9 "0") /\
  environ (fst (run (main int_decimal eight_gpus "/tmp/topo.xml")
                    (rank_of_9 "3")))
    = rank_of_9 "3".
Proof.
  split.
  - destruct (only_rank_0_sets_the_dump_file
                int_decimal no_gpu "/tmp/topo.xml" (rank_of_9 "0"))
      as (_ & Hzero & _).
    apply (Hzero 0); exists "0"; split; reflexivity.
  - destruct (only_rank_0_sets_the_dump_file
                int_decimal eight_gpus "/tmp/topo.xml" (rank_of_9 "3"))
      as (_ & _ & Hother).
    apply (Hother 3); [exists "3"; split; reflexivity | discriminate].
Defined.




(** X17. Whether a process passes the checks does not depend on its rank:
    two processes on the same machine that read the same WORLD_SIZE end in
    the same way, so either both reach the barrier or neither does. *)
Theorem ranks_agree_on_the_checks
        (int : string -> option Z) (torch : Torch)
        (out_file1 out_file2 : string) (env1 env2 : gmap string string)
        (rank1 local_rank1 rank2 local_rank2 : Z) :
  env_int int env1 "RANK" rank1 ->
  env_int int env1 "LOCAL_RANK" local_rank1 ->
  env_int int env2 "RANK" rank2 ->
  env_int int env2 "LOCAL_RANK" local_rank2 ->
  env1 !! "WORLD_SIZE" = env2 !! "WORLD_SIZE" ->
  ending (run (main int torch out_file1) env1)
    = ending (run (main int torch out_file2) env2) /\
  (In Barrier (trace (fst (run (main int torch out_file1) env1))) <->
   In Barrier (trace (fst (run (main int torch out_file2) env2)))).
Proof.
  intros (t1 & Hr1 & Hir1) (u1 & Hl1 & Hil1)
         (t2 & Hr2 & Hir2) (u2 & Hl2 & Hil2) Hworld.
  rewrite !run_main_cases. cbv zeta.
  rewrite Hr1, Hir1, Hl1, Hil1, Hr2, Hir2, Hl2, Hil2, Hworld.
  unfold ending, after_setup. split_run; cbn [fst snd trace In app];
    (split; [reflexivity|]);
    split; intros H;
    first [ do 2 right; left; reflexivity
          | repeat (destruct H as [H|H]; try discriminate H);
            contradiction ].
Qed.

Lemma ranks_agree_on_the_checks_witness :
  ending (run (main int_decimal eight_gpus "/tmp/a.xml") (rank_of_9 "0"))
    = ending (run (main int_decimal eight_gpus "/tmp/b.xml")
                  (rank_of_9 "7")).
Proof.
  apply (ranks_agree_on_the_checks
           int_decimal eight_gpus "/tmp/a.xml" "/tmp/b.xml"
           (rank_of_9 "0") (rank_of_9 "7") 0 0 7 7);
    [ exists "0"; split; reflexivity | exists "0"; split; reflexivity
    | exists "7"; split; reflexivity | exists "7"; split; reflexivity
    | reflexivity ].
Defined.

End TriggerMore.
